(** * Vista: the page controllers of [script.js]

    A shallow embedding of the controllers of the Vista travel page and the
    properties its specification states about them.  Every controller of
    [script.js] is a class whose constructor captures element references and
    registers listeners; a listener is embedded as a function on the part of
    the document the controller holds, an event as an application of that
    function.  A handler that can raise a [TypeError] returns a
    [completion], which keeps the mutations made before the throw. *)

From Stdlib Require Import List String Ascii Bool Arith ZArith QArith Qround Lia Lqa.
From Stdlib Require Import DecimalString Decimal DecimalPos.
Import ListNotations.

Local Open Scope string_scope.
Local Open Scope list_scope.
Local Open Scope nat_scope.

(* ================================================================== *)
(** ** The document model                                              *)
(* ================================================================== *)

(** [element.classList] is a DOMTokenList: an ordered set of tokens. *)
Module ClassList.

Definition t := list string.

Definition contains (tok : string) (l : t) : bool :=
  existsb (String.eqb tok) l.

(** [add] appends the token unless it is already present. *)
Definition add (tok : string) (l : t) : t :=
  if contains tok l then l else l ++ [tok].

(** [remove] deletes every occurrence of the token. *)
Definition remove (tok : string) (l : t) : t :=
  filter (fun x => negb (String.eqb tok x)) l.

(** [toggle] removes a present token and adds an absent one. *)
Definition toggle (tok : string) (l : t) : t :=
  if contains tok l then remove tok l else l ++ [tok].

End ClassList.

(** A value assigned to an inline style property: a literal string, or the
    template [`${x}%`] of a computed number, kept as the number. *)
Inductive jsreal : Type :=
  | Fin (q : Q)       (* a finite Number, idealised as a rational *)
  | NaNr              (* NaN *)
  | PosInfinity
  | NegInfinity.

Inductive StyleValue : Type :=
  | Lit (s : string)
  | Percent (x : jsreal).

(** The facets of an element that the controllers read and write:
    [classList], the [data-*] attributes ([dataset]), inline [style]
    properties and [textContent]. *)
Record Element : Type := mkElement {
  classList   : ClassList.t;
  dataset     : list (string * string);
  style       : list (string * StyleValue);
  textContent : string
}.

Definition with_classList (f : ClassList.t -> ClassList.t) (e : Element) : Element :=
  {| classList := f (classList e); dataset := dataset e;
     style := style e; textContent := textContent e |}.

Definition with_textContent (txt : string) (e : Element) : Element :=
  {| classList := classList e; dataset := dataset e;
     style := style e; textContent := txt |}.

Fixpoint assoc_set {V : Type} (k : string) (v : V) (l : list (string * V))
  : list (string * V) :=
  match l with
  | [] => [(k, v)]
  | (k', v') :: r =>
      if String.eqb k k' then (k, v) :: r else (k', v') :: assoc_set k v r
  end.

Fixpoint assoc_get {V : Type} (k : string) (l : list (string * V)) : option V :=
  match l with
  | [] => None
  | (k', v) :: r => if String.eqb k k' then Some v else assoc_get k r
  end.

(** [e.style[prop] = v] *)
Definition set_style (prop : string) (v : StyleValue) (e : Element) : Element :=
  {| classList := classList e; dataset := dataset e;
     style := assoc_set prop v (style e); textContent := textContent e |}.

(** [e.style[prop]]; a property never assigned reads as the empty string. *)
Definition get_style (prop : string) (e : Element) : StyleValue :=
  match assoc_get prop (style e) with
  | Some v => v
  | None => Lit ""
  end.

(** [e.dataset[key]]: [None] is JavaScript's [undefined]. *)
Definition data (key : string) (e : Element) : option string :=
  assoc_get key (dataset e).

Definition has_class (tok : string) (e : Element) : bool :=
  ClassList.contains tok (classList e).

(** [option string] compared with [===]. *)
Definition strict_eq (a b : option string) : bool :=
  match a, b with
  | Some x, Some y => String.eqb x y
  | None, None => true
  | _, _ => false
  end.

(** The outcome of running a handler: it returns, or it throws with the
    state as the statements before the throw left it. *)
Inductive completion (S : Type) : Type :=
  | Normal (s : S)
  | Throw (msg : string) (s : S).
Arguments Normal {S} s.
Arguments Throw {S} msg s.

Definition state_of {S : Type} (c : completion S) : S :=
  match c with Normal s => s | Throw _ s => s end.

Definition returns {S : Type} (c : completion S) : bool :=
  match c with Normal _ => true | Throw _ _ => false end.

(** [l[i] := f l[i]] for an index in range. *)
Fixpoint update_nth {A : Type} (i : nat) (f : A -> A) (l : list A) : list A :=
  match l, i with
  | [], _ => []
  | x :: r, O => f x :: r
  | x :: r, S j => x :: update_nth j f r
  end.

Definition count_class (tok : string) (l : list Element) : nat :=
  List.length (filter (has_class tok) l).

(** ** Numbers that hold an index                                      *)
(* ================================================================== *)

(** [currentSlide] and the result of [parseInt] are Numbers whose value is
    an integer or NaN. *)
Inductive jsint : Type :=
  | Int (z : Z)
  | NaN.

(** [a + 1] *)
Definition js_succ (a : jsint) : jsint :=
  match a with
  | Int z => Int (z + 1)
  | NaN => NaN
  end.

(** [a % n] for an array length [n]: the remainder has the sign of the
    dividend, and the remainder by zero is NaN. *)
Definition js_rem (a : jsint) (n : Z) : jsint :=
  match a with
  | Int z => if (n =? 0)%Z then NaN else Int (Z.rem z n)
  | NaN => NaN
  end.

(** [l[i]]: [undefined] unless [i] is an integer within the list. *)
Definition js_index {A : Type} (l : list A) (i : jsint) : option A :=
  match i with
  | Int z => if (z <? 0)%Z then None else nth_error l (Z.to_nat z)
  | NaN => None
  end.

(** [l[i].classList.add(tok)], once [l[i]] is known to exist. *)
Definition add_class_at (tok : string) (i : jsint) (l : list Element) : list Element :=
  match i with
  | Int z => update_nth (Z.to_nat z) (with_classList (ClassList.add tok)) l
  | NaN => l
  end.

(** [l.forEach(e => e.classList.remove(tok))] *)
Definition remove_class_all (tok : string) (l : list Element) : list Element :=
  map (with_classList (ClassList.remove tok)) l.

(** [document.createElement(tag)]: an element with nothing set. *)
Definition createElement : Element :=
  {| classList := []; dataset := []; style := []; textContent := "" |}.

(* ================================================================== *)
(** ** TestimonialsSlider                                              *)
(* ================================================================== *)

Module TestimonialsSlider.

(** An interval registered with [setInterval]: its handle, the time of its
    next firing and its period, in milliseconds. *)
Record timer : Type := mkTimer {
  handle : nat;
  due    : Z;
  period : Z
}.

(** The controller's fields, the two element collections it holds, and the
    platform's interval table and clock. *)
Record t : Type := mkSlider {
  cards        : list Element;
  dots         : list Element;
  currentSlide : jsint;
  autoPlay     : bool;
  intervalTime : Z;
  interval     : option nat;
  timers       : list timer;
  next_handle  : nat;
  clock        : Z
}.

Definition set_cards (v : list Element) (s : t) : t :=
  mkSlider v (dots s) (currentSlide s) (autoPlay s) (intervalTime s)
           (interval s) (timers s) (next_handle s) (clock s).

Definition set_dots (v : list Element) (s : t) : t :=
  mkSlider (cards s) v (currentSlide s) (autoPlay s) (intervalTime s)
           (interval s) (timers s) (next_handle s) (clock s).

Definition set_currentSlide (v : jsint) (s : t) : t :=
  mkSlider (cards s) (dots s) v (autoPlay s) (intervalTime s)
           (interval s) (timers s) (next_handle s) (clock s).

Definition set_autoPlay (v : bool) (s : t) : t :=
  mkSlider (cards s) (dots s) (currentSlide s) v (intervalTime s)
           (interval s) (timers s) (next_handle s) (clock s).

(** [clearInterval(h)]: cancels the interval with that handle;
    [clearInterval(undefined)] does nothing. *)
Definition clearInterval (h : option nat) (s : t) : t :=
  match h with
  | None => s
  | Some n =>
      mkSlider (cards s) (dots s) (currentSlide s) (autoPlay s) (intervalTime s)
               (interval s)
               (filter (fun tm => negb (Nat.eqb (handle tm) n)) (timers s))
               (next_handle s) (clock s)
  end.

(** [this.interval = setInterval(callback, ms)] *)
Definition setInterval (ms : Z) (s : t) : t :=
  mkSlider (cards s) (dots s) (currentSlide s) (autoPlay s) (intervalTime s)
           (Some (next_handle s))
           (timers s ++ [mkTimer (next_handle s) (clock s + ms) ms])
           (S (next_handle s)) (clock s).

(** [createDots()]: one [span.dot] per card, the first one also [active];
    [this.dots] is then the dots just built. *)
Definition new_dot (index : nat) : Element :=
  let dot := with_classList (ClassList.add "dot") createElement in
  if Nat.eqb index 0 then with_classList (ClassList.add "active") dot else dot.

Definition createDots (s : t) : t :=
  set_dots (map new_dot (seq 0 (List.length (cards s)))) s.

(** [goToSlide(index)] *)
Definition goToSlide (index : jsint) (s : t) : completion t :=
  let s1 := set_cards (remove_class_all "active" (cards s)) s in
  let s2 := set_dots (remove_class_all "active" (dots s1)) s1 in
  match js_index (cards s2) index with
  | None => Throw "TypeError: this.cards[index] is undefined" s2
  | Some _ =>
      let s3 := set_cards (add_class_at "active" index (cards s2)) s2 in
      match js_index (dots s3) index with
      | None => Throw "TypeError: this.dots[index] is undefined" s3
      | Some _ =>
          let s4 := set_dots (add_class_at "active" index (dots s3)) s3 in
          Normal (set_currentSlide index s4)
      end
  end.

(** The callback given to [setInterval]: the timed advance. *)
Definition advance (s : t) : completion t :=
  let s1 :=
    set_currentSlide
      (js_rem (js_succ (currentSlide s)) (Z.of_nat (List.length (cards s)))) s in
  goToSlide (currentSlide s1) s1.

(** [startAutoPlay()] *)
Definition startAutoPlay (s : t) : t :=
  if negb (autoPlay s) then s
  else setInterval (intervalTime s) (clearInterval (interval s) s).

(** The constructor followed by [init()], over the testimonial cards and
    the dots of the markup; the two containers [.slider-dots] and
    [.testimonials-slider] are taken to exist (the constructor throws
    without them).  [createDots] empties the container, so the dots of the
    markup are gone when the listeners are registered. *)
Definition construct (markup_cards markup_dots : list Element) : t :=
  let this := mkSlider markup_cards markup_dots (Int 0) true 5000 None [] 0 0 in
  startAutoPlay (createDots this).

(** The usual page: the markup leaves [.slider-dots] empty. *)
Definition create (markup_cards : list Element) : t :=
  construct markup_cards [].

(** The listeners registered by [init()]. *)
Definition on_dot_click (index : nat) (s : t) : completion t :=
  goToSlide (Int (Z.of_nat index)) s.

Definition on_mouseenter (s : t) : t :=
  set_autoPlay false s.

Definition on_mouseleave (s : t) : t :=
  startAutoPlay (set_autoPlay true s).

(** One firing of the interval callback; an exception thrown by a timer
    callback is reported by the platform and the page carries on. *)
Definition fire (s : t) : t := state_of (advance s).

(** One millisecond passes: every interval that falls due fires and is
    rescheduled one period later. *)
Definition reschedule (now : Z) (tm : timer) : timer :=
  if (due tm =? now)%Z then mkTimer (handle tm) (due tm + period tm) (period tm)
  else tm.

Definition millisecond (s : t) : t :=
  let now := (clock s + 1)%Z in
  let due_now := filter (fun tm => (due tm =? now)%Z) (timers s) in
  let s1 :=
    mkSlider (cards s) (dots s) (currentSlide s) (autoPlay s) (intervalTime s)
             (interval s) (map (reschedule now) (timers s)) (next_handle s) now in
  fold_left (fun acc _ => fire acc) due_now s1.

Definition elapse (ms : nat) (s : t) : t := Nat.iter ms millisecond s.

(** [k] firings of the interval callback. *)
Definition ticks (k : nat) (s : t) : t := Nat.iter k fire s.

(** The carousel holds [n] cards and [n] dots and stands at slide [c]. *)
Definition standing (n : nat) (c : Z) (s : t) : Prop :=
  List.length (cards s) = n /\ List.length (dots s) = n
  /\ currentSlide s = Int c /\ (0 <= c < Z.of_nat n)%Z.

(** Testimonial cards as a page may have them, the first one marked. *)
Definition three_cards : list Element :=
  [mkElement ["testimonial-card"; "active"] [] [] "";
   mkElement ["testimonial-card"] [] [] "";
   mkElement ["testimonial-card"] [] [] ""].

(** The smallest carousel that can show a move. *)
Definition two_cards : list Element :=
  [mkElement ["testimonial-card"; "active"] [] [] "";
   mkElement ["testimonial-card"] [] [] ""].

End TestimonialsSlider.

(* ================================================================== *)
(** ** DestinationFilter                                               *)
(* ================================================================== *)

Module DestinationFilter.

Record t : Type := mkFilter {
  filterBtns : list Element;
  cards      : list Element
}.

(** The body of the [forEach] in [filter(category)], for one card. *)
Definition filter_card (category : option string) (card : Element) : Element :=
  if strict_eq category (Some "all") || strict_eq (data "category" card) category
  then set_style "animation" (Lit "fadeIn 0.5s ease forwards")
         (with_classList (ClassList.remove "hidden") card)
  else with_classList (ClassList.add "hidden") card.

(** [filter(category)] *)
Definition filter (category : option string) (s : t) : t :=
  mkFilter (filterBtns s) (map (filter_card category) (cards s)).

(** The click listener of [filterBtns[i]]; an index outside the collection
    names no button and so no listener. *)
Definition on_click (i : nat) (s : t) : t :=
  match nth_error (filterBtns s) i with
  | None => s
  | Some btn =>
      let cleared := remove_class_all "active" (filterBtns s) in
      let marked := update_nth i (with_classList (ClassList.add "active")) cleared in
      filter (data "filter" btn) (mkFilter marked (cards s))
  end.

Definition clicks (l : list nat) (s : t) : t :=
  fold_left (fun acc i => on_click i acc) l s.

(** What the specification calls a visible card: one not flagged hidden. *)
Definition visible (card : Element) : bool := negb (has_class "hidden" card).

(** Three filter buttons and three destination cards. *)
Definition filter_page : t :=
  mkFilter
    [mkElement ["filter-btn"; "active"] [("filter", "all")] [] "All";
     mkElement ["filter-btn"] [("filter", "beach")] [] "Beach";
     mkElement ["filter-btn"] [("filter", "mountain")] [] "Mountain"]
    [mkElement ["destination-card"] [("category", "beach")] [] "";
     mkElement ["destination-card"] [("category", "mountain")] [] "";
     mkElement ["destination-card"; "hidden"] [("category", "city")] [] ""].

End DestinationFilter.

(* ================================================================== *)
(** ** Arithmetic on Numbers                                           *)
(* ================================================================== *)

(** Finite Numbers are idealised as rationals: the rounding of binary64
    is not modelled, the special values of a division by zero are. *)

Definition jsreal_sub (a b : jsreal) : jsreal :=
  match a, b with
  | Fin x, Fin y => Fin (x - y)
  | NaNr, _ | _, NaNr => NaNr
  | PosInfinity, PosInfinity | NegInfinity, NegInfinity => NaNr
  | PosInfinity, _ | _, NegInfinity => PosInfinity
  | NegInfinity, _ | _, PosInfinity => NegInfinity
  end.

Definition jsreal_add (a b : jsreal) : jsreal :=
  match a, b with
  | Fin x, Fin y => Fin (x + y)
  | NaNr, _ | _, NaNr => NaNr
  | PosInfinity, NegInfinity | NegInfinity, PosInfinity => NaNr
  | PosInfinity, _ | _, PosInfinity => PosInfinity
  | NegInfinity, _ | _, NegInfinity => NegInfinity
  end.

(** The sign of a rational: [Gt] positive, [Eq] zero, [Lt] negative. *)
Definition Qsign (x : Q) : comparison := (0 ?= x)%Q.

Definition signed_infinity (c : comparison) : jsreal :=
  match c with
  | Lt => PosInfinity
  | Eq => NaNr
  | Gt => NegInfinity
  end.

Definition flip (c : comparison) : comparison := CompOpp c.

Definition jsreal_div (a b : jsreal) : jsreal :=
  match a, b with
  | NaNr, _ | _, NaNr => NaNr
  | Fin x, Fin y =>
      if Qeq_bool y 0 then signed_infinity (Qsign x) else Fin (x / y)
  | Fin _, _ => Fin 0
  | PosInfinity, Fin y =>
      if Qeq_bool y 0 then PosInfinity else signed_infinity (Qsign y)
  | NegInfinity, Fin y =>
      if Qeq_bool y 0 then NegInfinity else signed_infinity (flip (Qsign y))
  | _, _ => NaNr
  end.

Definition jsreal_mul (a b : jsreal) : jsreal :=
  match a, b with
  | NaNr, _ | _, NaNr => NaNr
  | Fin x, Fin y => Fin (x * y)
  | Fin x, PosInfinity | PosInfinity, Fin x => signed_infinity (Qsign x)
  | Fin x, NegInfinity | NegInfinity, Fin x => signed_infinity (flip (Qsign x))
  | PosInfinity, PosInfinity | NegInfinity, NegInfinity => PosInfinity
  | _, _ => NegInfinity
  end.

(** [a < b]: false as soon as one side is NaN. *)
Definition jsreal_ltb (a b : jsreal) : bool :=
  match a, b with
  | NaNr, _ | _, NaNr => false
  | Fin x, Fin y => if Qlt_le_dec x y then true else false
  | NegInfinity, NegInfinity => false
  | NegInfinity, _ => true
  | _, PosInfinity => match a with PosInfinity => false | _ => true end
  | _, _ => false
  end.

Definition to_real (a : jsint) : jsreal :=
  match a with
  | Int z => Fin (inject_Z z)
  | NaN => NaNr
  end.

(* ================================================================== *)
(** ** Utils.throttle and ScrollProgress                               *)
(* ================================================================== *)

Module ScrollProgress.

(** What the handler reads: [window.scrollY], [window.innerHeight] and
    [document.documentElement.scrollHeight]. *)
Record viewport : Type := mkViewport {
  scrollY      : Q;
  innerHeight  : Q;
  scrollHeight : Q
}.

Record t : Type := mkProgress {
  progressBar : Element;
  inThrottle  : bool
}.

(** [(scrollTop / docHeight) * 100] *)
Definition scrollPercent (w : viewport) : jsreal :=
  let scrollTop := Fin (scrollY w) in
  let docHeight := jsreal_sub (Fin (scrollHeight w)) (Fin (innerHeight w)) in
  jsreal_mul (jsreal_div scrollTop docHeight) (Fin 100).

(** What the setter of [style.width] accepts of a template [`${x}%`]: a
    finite percentage that is not negative.  The strings ["NaN%"],
    ["Infinity%"] and a negative width do not parse as a width, and the
    setter then leaves the property as it was. *)
Definition accepted_width (x : jsreal) : bool :=
  match x with
  | Fin q => Qle_bool 0 q
  | _ => false
  end.

Definition assign_width (x : jsreal) (bar : Element) : Element :=
  if accepted_width x then set_style "width" (Percent x) bar else bar.

(** The function given to [Utils.throttle]. *)
Definition update (w : viewport) (bar : Element) : Element :=
  assign_width (scrollPercent w) bar.

(** The wrapper built by [Utils.throttle(func, 50)]: it runs [func] and
    then ignores calls until its timer clears [inThrottle]. *)
Definition on_scroll (w : viewport) (s : t) : t :=
  if negb (inThrottle s) then mkProgress (update w (progressBar s)) true
  else s.

Definition on_throttle_timeout (s : t) : t :=
  mkProgress (progressBar s) false.

(** A page scrolled half way down, and a page as tall as the viewport. *)
Definition half_way : viewport := mkViewport 600 800 2000.

Definition no_overflow : viewport := mkViewport 0 800 800.

End ScrollProgress.

(* ================================================================== *)
(** ** parseInt and the rendering of Numbers                           *)
(* ================================================================== *)

(** The white space [parseInt] skips, within ASCII: tab, line feed,
    vertical tab, form feed, carriage return and space. *)
Definition is_whitespace (c : ascii) : bool :=
  let n := nat_of_ascii c in
  Nat.eqb n 9 || Nat.eqb n 10 || Nat.eqb n 11 || Nat.eqb n 12
  || Nat.eqb n 13 || Nat.eqb n 32.

Fixpoint trim_start (s : string) : string :=
  match s with
  | String c r => if is_whitespace c then trim_start r else s
  | EmptyString => s
  end.

(** The value of a character as a digit: [0-9], then [a-z] or [A-Z] for
    ten to thirty-five. *)
Definition digit_value (c : ascii) : option Z :=
  let n := Z.of_nat (nat_of_ascii c) in
  if ((48 <=? n) && (n <=? 57))%Z then Some (n - 48)%Z
  else if ((97 <=? n) && (n <=? 122))%Z then Some (n - 87)%Z
  else if ((65 <=? n) && (n <=? 90))%Z then Some (n - 55)%Z
  else None.

(** The value of the longest prefix made of digits of the radix; [None]
    when that prefix is empty. *)
Fixpoint parse_digits (radix : Z) (s : string) (acc : option Z) : option Z :=
  match s with
  | EmptyString => acc
  | String c r =>
      match digit_value c with
      | Some d =>
          if (d <? radix)%Z
          then parse_digits radix r
                 (Some (match acc with Some a => a * radix + d | None => d end)%Z)
          else acc
      | None => acc
      end
  end.

(** [parseInt(string)] with no radix given: leading white space, a sign, a
    [0x] prefix that selects radix sixteen, then digits up to the first
    character that is none; NaN without a digit.  The value is the exact
    integer, which is the Number returned as long as it is a safe integer
    (below 2^53 in absolute value). *)
Definition parseInt (input : string) : jsint :=
  let s := trim_start input in
  let '(sign, s1) :=
    match s with
    | String "-"%char r => ((-1)%Z, r)
    | String "+"%char r => (1%Z, r)
    | _ => (1%Z, s)
    end in
  let '(radix, s2) :=
    match s1 with
    | String "0"%char (String "x"%char r) => (16%Z, r)
    | String "0"%char (String "X"%char r) => (16%Z, r)
    | _ => (10%Z, s1)
    end in
  match parse_digits radix s2 None with
  | None => NaN
  | Some m => Int (sign * m)
  end.

(** [parseInt(v)] for a value that may be [undefined], which is converted
    to the string ["undefined"] first. *)
Definition parseInt_value (v : option string) : jsint :=
  match v with
  | Some s => parseInt s
  | None => parseInt "undefined"
  end.

Definition safe_integer (a : jsint) : Prop :=
  match a with
  | Int z => (Z.abs z < 2 ^ 53)%Z
  | NaN => True
  end.

Definition decimal (z : Z) : string := NilZero.string_of_int (Z.to_int z).

(** [String(a)] for an integer-valued Number. *)
Definition number_to_string (a : jsint) : string :=
  match a with
  | Int z => decimal z
  | NaN => "NaN"
  end.

(** [String(Math.floor(x))] *)
Definition floor_to_string (x : jsreal) : string :=
  match x with
  | Fin q => decimal (Qfloor q)
  | NaNr => "NaN"
  | PosInfinity => "Infinity"
  | NegInfinity => "-Infinity"
  end.

(* ================================================================== *)
(** ** CounterAnimation                                                *)
(* ================================================================== *)

Module CounterAnimation.

(** The variables captured by the closure [updateCounter], the counter
    element, and whether [requestAnimationFrame] has a call pending. *)
Record t : Type := mkAnimation {
  counter : Element;
  target  : jsint;
  step    : jsreal;
  current : jsreal;
  frame_requested : bool
}.

Definition duration : jsreal := Fin 2000.

(** [(counter.dataset.count === '10' ? '' : 'K+')] *)
Definition suffix (counter : Element) : string :=
  if strict_eq (data "count" counter) (Some "10") then "" else "K+".

(** [updateCounter()] *)
Definition updateCounter (a : t) : t :=
  let current' := jsreal_add (current a) (step a) in
  if jsreal_ltb current' (to_real (target a))
  then mkAnimation
         (with_textContent (floor_to_string current' ++ suffix (counter a)) (counter a))
         (target a) (step a) current' true
  else mkAnimation
         (with_textContent (number_to_string (target a) ++ suffix (counter a)) (counter a))
         (target a) (step a) current' false.

(** [animateCounter(counter)], up to the return of its first call of
    [updateCounter]. *)
Definition animateCounter (counter : Element) : t :=
  let target := parseInt_value (data "count" counter) in
  let step := jsreal_div (to_real target) (jsreal_div duration (Fin 16)) in
  updateCounter (mkAnimation counter target step (Fin 0) false).

(** The next animation frame: the pending call, if there is one, runs. *)
Definition animation_frame (a : t) : t :=
  if frame_requested a then updateCounter a else a.

Definition frames (n : nat) (a : t) : t := Nat.iter n animation_frame a.

(** The specification's reading: the suffix is decided by the target. *)
Definition renders_by_target (c : Element) : Prop :=
  let a := frames 124 (animateCounter c) in
  (target a = Int 10 -> textContent (counter a) = "10")
  /\ (forall N, target a = Int N -> N <> 10%Z ->
        textContent (counter a) = (decimal N ++ "K+")%string).

(** A counter element whose [data-count] attribute is [count]. *)
Definition counter_of (count : string) : Element :=
  mkElement ["stat-number"] [("count", count)] [] "0".

End CounterAnimation.

(* ================================================================== *)
(** ** SearchModal                                                     *)
(* ================================================================== *)

Module SearchModal.

(** The identity of an element of the page. *)
Definition node : Type := nat.

(** The four references the constructor looks up, each [null] ([None])
    when the markup has no such element, with the two elements the
    handlers write: the overlay and [document.body]. *)
Record t : Type := mkSearch {
  searchBtn     : option node;
  searchModal   : option node;
  searchClose   : option node;
  searchInput   : option node;
  modal         : Element;
  body          : Element;
  focus_pending : bool
}.

Definition is_node (r : option node) (n : node) : bool :=
  match r with
  | Some m => Nat.eqb m n
  | None => false
  end.

(** [open()] *)
Definition open (s : t) : completion t :=
  match searchModal s with
  | None => Throw "TypeError: this.searchModal is null" s
  | Some _ =>
      Normal (mkSearch (searchBtn s) (searchModal s) (searchClose s) (searchInput s)
                (with_classList (ClassList.add "active") (modal s))
                (set_style "overflow" (Lit "hidden") (body s))
                true)
  end.

(** [close()] *)
Definition close (s : t) : completion t :=
  match searchModal s with
  | None => Throw "TypeError: this.searchModal is null" s
  | Some _ =>
      Normal (mkSearch (searchBtn s) (searchModal s) (searchClose s) (searchInput s)
                (with_classList (ClassList.remove "active") (modal s))
                (set_style "overflow" (Lit "") (body s))
                (focus_pending s))
  end.

(** A click: its target and the target's ancestors, innermost first.  The
    event visits the target and then each ancestor, and runs the listeners
    registered there. *)
Record click : Type := mkClick {
  target    : node;
  ancestors : list node
}.

Definition path (ev : click) : list node := target ev :: ancestors ev.

(** The click listeners of [init()] that are registered on node [n], in
    the order of their registration.  A listener that throws ends alone. *)
Definition listeners_at (ev : click) (s : t) (n : node) : t :=
  let s1 := if is_node (searchBtn s) n then state_of (open s) else s in
  let s2 := if is_node (searchClose s1) n then state_of (close s1) else s1 in
  if is_node (searchModal s2) n
  then (if Nat.eqb (target ev) n then state_of (close s2) else s2)
  else s2.

Definition on_click (ev : click) (s : t) : t :=
  fold_left (listeners_at ev) (path ev) s.

(** The [keydown] listener on the document; [?.] yields [undefined] on a
    missing overlay. *)
Definition on_keydown (key : string) (s : t) : t :=
  if String.eqb key "Escape"
     && match searchModal s with
        | Some _ => has_class "active" (modal s)
        | None => false
        end
  then state_of (close s)
  else s.

(** The overlay is open when it carries [active]. *)
Definition is_open (s : t) : bool := has_class "active" (modal s).

(** The references are fixed at construction: no listener changes them. *)
Definition same_refs (s s' : t) : Prop :=
  searchModal s' = searchModal s /\ searchClose s' = searchClose s
  /\ searchBtn s' = searchBtn s.

(** A page where the overlay (node 2) holds a content box (node 3) with
    the close button (node 4) and the input (node 5); the trigger is
    node 1 and the body node 0. *)
Definition search_page_open : t :=
  mkSearch (Some 1) (Some 2) (Some 4) (Some 5)
    (mkElement ["search-modal"; "active"] [] [] "")
    (mkElement [] [] [("overflow", Lit "hidden")] "")
    false.

End SearchModal.

(* ================================================================== *)
(** ** GalleryLightbox                                                 *)
(* ================================================================== *)

Module GalleryLightbox.

(** The [src] and [alt] of the image a gallery item shows. *)
Record image : Type := mkImage {
  src : string;
  alt : string
}.

(** A child of [document.head] or [document.body], as far as the lightbox
    is concerned: its identity, its tag, its [className] and, for an
    overlay, the image its [innerHTML] shows. *)
Record node : Type := mkNode {
  id        : nat;
  tag       : string;
  className : string;
  shows     : option image
}.

(** The two nodes one call of [openLightbox] creates; its three listeners
    close over them. *)
Record overlay : Type := mkOverlay {
  lightbox : nat;
  injected : nat
}.

(** [keydown] holds, in order of registration, the listeners added to the
    document; none is ever removed. *)
Record document : Type := mkDocument {
  head    : list node;
  body    : list node;
  keydown : list overlay;
  fresh   : nat
}.

(** [node.remove()]: the node leaves its parent; removing a node that is
    not attached does nothing. *)
Definition detach (n : nat) (l : list node) : list node :=
  filter (fun x => negb (Nat.eqb (id x) n)) l.

Definition remove (n : nat) (d : document) : document :=
  mkDocument (detach n (head d)) (detach n (body d)) (keydown d) (fresh d).

(** [lightbox.remove(); style.remove();] *)
Definition dismiss (o : overlay) (d : document) : document :=
  remove (injected o) (remove (lightbox o) d).

(** The overlay a call of [openLightbox] builds in document [d]. *)
Definition new_overlay (d : document) : overlay :=
  mkOverlay (fresh d) (S (fresh d)).

(** [openLightbox(img)]; [img] is [null] for a gallery item without an
    image, and reading [img.src] then throws before anything is built. *)
Definition openLightbox (img : option image) (d : document) : completion document :=
  match img with
  | None => Throw "TypeError: img is null" d
  | Some picture =>
      let o := new_overlay d in
      Normal (mkDocument
                (head d ++ [mkNode (injected o) "style" "" None])
                (body d ++ [mkNode (lightbox o) "div" "lightbox" (Some picture)])
                (keydown d ++ [o])
                (S (S (fresh d))))
  end.

(** The nodes of an overlay that a click can land on: the overlay itself
    and what its [innerHTML] builds. *)
Inductive part : Type :=
  | Backdrop
  | Content
  | Image
  | CloseButton
  | CloseIcon.

(** The nodes a click visits inside the overlay, from its target up. *)
Definition path (p : part) : list part :=
  match p with
  | Backdrop => [Backdrop]
  | Content => [Content; Backdrop]
  | Image => [Image; Content; Backdrop]
  | CloseButton => [CloseButton; Content; Backdrop]
  | CloseIcon => [CloseIcon; CloseButton; Content; Backdrop]
  end.

Definition part_eqb (a b : part) : bool :=
  match a, b with
  | Backdrop, Backdrop | Content, Content | Image, Image
  | CloseButton, CloseButton | CloseIcon, CloseIcon => true
  | _, _ => false
  end.

(** The two click listeners of an overlay, run where the click passes. *)
Definition listeners_at (o : overlay) (target : part) (d : document) (p : part)
  : document :=
  match p with
  | CloseButton => dismiss o d
  | Backdrop => if part_eqb target Backdrop then dismiss o d else d
  | _ => d
  end.

Definition on_click (o : overlay) (target : part) (d : document) : document :=
  fold_left (listeners_at o target) (path target) d.

(** A key press runs every [keydown] listener of the document. *)
Definition on_keydown (key : string) (d : document) : document :=
  fold_left (fun acc o => if String.eqb key "Escape" then dismiss o acc else acc)
            (keydown d) d.

(** The three ways of dismissing an overlay. *)
Inductive dismissal : Type :=
  | ByCloseButton
  | ByOutsideClick
  | ByEscape.

Definition dismiss_by (how : dismissal) (o : overlay) (d : document) : document :=
  match how with
  | ByCloseButton => on_click o CloseButton d
  | ByOutsideClick => on_click o Backdrop d
  | ByEscape => on_keydown "Escape" d
  end.

(** The nodes the controller can have put in the document. *)
Definition all_nodes (d : document) : list node := head d ++ body d.

Definition is_lightbox (x : node) : bool := String.eqb (className x) "lightbox".

(** The lightbox overlays of the document. *)
Definition lightbox_nodes (d : document) : list node :=
  filter is_lightbox (all_nodes d).

(** Whether the node of that identity is in the document. *)
Definition attached (n : nat) (d : document) : bool :=
  existsb (fun x => Nat.eqb (id x) n) (all_nodes d).

(** Every overlay node of the document is the node [n]. *)
Definition only_overlay (n : nat) (d : document) : Prop :=
  forall x, In x (lightbox_nodes d) -> id x = n.

(** A page with a title and a gallery section, no overlay open. *)
Definition plain_page : document :=
  mkDocument [mkNode 0 "title" "" None] [mkNode 1 "section" "gallery" None] [] 2.

End GalleryLightbox.

(* ================================================================== *)
(** ** LikeButtonHandler                                               *)
(* ================================================================== *)

Module LikeButtonHandler.

(** A [.card-btn] and the first [i] inside it, [null] when it has none. *)
Record t : Type := mkLike {
  btn  : Element;
  icon : option Element
}.

(** The click listener of one button. *)
Definition on_click (s : t) : completion t :=
  let btn' := with_classList (ClassList.toggle "liked") (btn s) in
  match icon s with
  | None => Throw "TypeError: icon is null" (mkLike btn' None)
  | Some i =>
      if has_class "liked" btn'
      then Normal (mkLike btn'
             (Some (set_style "color" (Lit "#e94560")
                      (with_classList (ClassList.add "fas")
                         (with_classList (ClassList.remove "far") i)))))
      else Normal (mkLike btn'
             (Some (set_style "color" (Lit "")
                      (with_classList (ClassList.add "far")
                         (with_classList (ClassList.remove "fas") i)))))
  end.

(** A like button of a destination card, not liked yet, and its icon. *)
Definition heart_button : Element := mkElement ["card-btn"] [] [] "".

Definition heart_icon : Element := mkElement ["far"; "fa-heart"] [] [] "".

End LikeButtonHandler.

(* ================================================================== *)
(** ** What each controller writes                                     *)
(* ================================================================== *)

Module Footprint.

(** The fourteen classes [initApp] instantiates. *)
Inductive controller : Type :=
  | Loader
  | Navigation
  | ScrollProgress
  | ScrollAnimations
  | CounterAnimation
  | DestinationFilter
  | TestimonialsSlider
  | SearchModal
  | BackToTop
  | FormHandler
  | GalleryLightbox
  | ParallaxEffect
  | ActiveNavLink
  | LikeButtonHandler.

Definition controllers : list controller :=
  [Loader; Navigation; ScrollProgress; ScrollAnimations; CounterAnimation;
   DestinationFilter; TestimonialsSlider; SearchModal; BackToTop; FormHandler;
   GalleryLightbox; ParallaxEffect; ActiveNavLink; LikeButtonHandler].

Definition controller_index (c : controller) : nat :=
  match c with
  | Loader => 0 | Navigation => 1 | ScrollProgress => 2 | ScrollAnimations => 3
  | CounterAnimation => 4 | DestinationFilter => 5 | TestimonialsSlider => 6
  | SearchModal => 7 | BackToTop => 8 | FormHandler => 9 | GalleryLightbox => 10
  | ParallaxEffect => 11 | ActiveNavLink => 12 | LikeButtonHandler => 13
  end.

Definition controller_eqb (a b : controller) : bool :=
  Nat.eqb (controller_index a) (controller_index b).

(** How the code reaches the element it writes: [document.body] and
    [document.head], [getElementById], [querySelector(All)], the first
    match of a selector inside each element of a collection, or
    [createElement] in a given controller. *)
Inductive referent : Type :=
  | Body
  | Head
  | ById (id : string)
  | Query (selector : string)
  | Within (selector inner : string)
  | Created (by_controller : controller) (variable : string).

(** The part of an element a statement writes.  The scroll position of the
    window and the input focus belong to no element and are left out. *)
Inductive facet : Type :=
  | ClassAttr                 (* classList and className *)
  | StyleProp (prop : string) (* one inline style property *)
  | Text                      (* textContent *)
  | Children                  (* innerHTML, appendChild, remove *)
  | FormValues.               (* form.reset() *)

(** The writing statements of the source. *)
Inductive effect : Type :=
  | ClassAdd (r : referent) (tok : string)
  | ClassRemove (r : referent) (tok : string)
  | ClassToggle (r : referent) (tok : string)
  | SetClassName (r : referent)
  | SetStyle (r : referent) (prop : string)
  | SetText (r : referent)
  | SetInnerHTML (r : referent)
  | AppendChild (parent child : referent)
  | RemoveChild (parent child : referent)
  | Reset (r : referent).

Definition datum : Type := (referent * facet)%type.

Definition datum_of (e : effect) : datum :=
  match e with
  | ClassAdd r _ | ClassRemove r _ | ClassToggle r _ | SetClassName r => (r, ClassAttr)
  | SetStyle r prop => (r, StyleProp prop)
  | SetText r => (r, Text)
  | SetInnerHTML r => (r, Children)
  | AppendChild parent _ | RemoveChild parent _ => (parent, Children)
  | Reset r => (r, FormValues)
  end.

(** The writes of every method of every controller, in source order. *)
Definition effects (c : controller) : list effect :=
  match c with
  | Loader =>
      (* hide *)
      [ClassAdd (ById "loader") "hidden"; SetStyle Body "overflow"]
  | Navigation =>
      (* handleScroll *)
      [ClassAdd (ById "navbar") "scrolled"; ClassRemove (ById "navbar") "scrolled";
      (* handleHamburger *)
       ClassToggle (ById "hamburger") "active"; ClassToggle (ById "navMenu") "active";
       SetStyle Body "overflow";
      (* handleDropdown *)
       ClassToggle (Query ".nav-item.dropdown") "active";
      (* handleNavLinks *)
       ClassRemove (Query ".nav-link[data-scroll]") "active";
       ClassAdd (Query ".nav-link[data-scroll]") "active";
       ClassRemove (ById "hamburger") "active"; ClassRemove (ById "navMenu") "active";
       SetStyle Body "overflow"]
  | ScrollProgress =>
      [SetStyle (ById "scrollProgress") "width"]
  | ScrollAnimations =>
      [ClassAdd (Query "[data-animate]") "animated";
       ClassAdd (Query "[data-animate]") "animated"]
  | CounterAnimation =>
      [SetText (Query ".stat-number[data-count]");
       SetText (Query ".stat-number[data-count]")]
  | DestinationFilter =>
      (* init *)
      [ClassRemove (Query ".filter-btn") "active"; ClassAdd (Query ".filter-btn") "active";
      (* filter *)
       ClassRemove (Query ".destination-card") "hidden";
       SetStyle (Query ".destination-card") "animation";
       ClassAdd (Query ".destination-card") "hidden"]
  | TestimonialsSlider =>
      (* createDots *)
      [SetInnerHTML (Query ".slider-dots");
       ClassAdd (Created TestimonialsSlider "dot") "dot";
       ClassAdd (Created TestimonialsSlider "dot") "active";
       AppendChild (Query ".slider-dots") (Created TestimonialsSlider "dot");
      (* goToSlide *)
       ClassRemove (Query ".testimonial-card") "active";
       ClassRemove (Query ".slider-dots .dot") "active";
       ClassAdd (Query ".testimonial-card") "active";
       ClassAdd (Query ".slider-dots .dot") "active"]
  | SearchModal =>
      (* open *)
      [ClassAdd (ById "searchModal") "active"; SetStyle Body "overflow";
      (* close *)
       ClassRemove (ById "searchModal") "active"; SetStyle Body "overflow"]
  | BackToTop =>
      [ClassAdd (ById "backToTop") "visible"; ClassRemove (ById "backToTop") "visible"]
  | FormHandler =>
      (* handleContactSubmit, handleNewsletterSubmit *)
      [Reset (ById "contactForm"); Reset (ById "newsletterForm");
      (* showNotification *)
       SetClassName (Created FormHandler "notification");
       SetInnerHTML (Created FormHandler "notification");
       SetText (Created FormHandler "style");
       AppendChild Head (Created FormHandler "style");
       AppendChild Body (Created FormHandler "notification");
       RemoveChild Body (Created FormHandler "notification");
       RemoveChild Head (Created FormHandler "style")]
  | GalleryLightbox =>
      (* openLightbox *)
      [SetClassName (Created GalleryLightbox "lightbox");
       SetInnerHTML (Created GalleryLightbox "lightbox");
       SetText (Created GalleryLightbox "style");
       AppendChild Head (Created GalleryLightbox "style");
       AppendChild Body (Created GalleryLightbox "lightbox");
       RemoveChild Body (Created GalleryLightbox "lightbox");
       RemoveChild Head (Created GalleryLightbox "style")]
  | ParallaxEffect =>
      [SetStyle (Query ".mountain") "transform";
       SetStyle (Query ".clouds, .cloud-extra") "transform";
       SetStyle (Query ".hero-content") "opacity";
       SetStyle (Query ".hero-content") "transform"]
  | ActiveNavLink =>
      (* updateActiveLink *)
      [ClassRemove (Query ".nav-link") "active"; ClassAdd (Query ".nav-link") "active"]
  | LikeButtonHandler =>
      [ClassToggle (Query ".card-btn") "liked";
       ClassRemove (Within ".card-btn" "i") "far"; ClassAdd (Within ".card-btn" "i") "fas";
       SetStyle (Within ".card-btn" "i") "color";
       ClassRemove (Within ".card-btn" "i") "fas"; ClassAdd (Within ".card-btn" "i") "far";
       SetStyle (Within ".card-btn" "i") "color"]
  end.

Definition writes (c : controller) : list datum := map datum_of (effects c).

Definition referent_eqb (a b : referent) : bool :=
  match a, b with
  | Body, Body | Head, Head => true
  | ById x, ById y | Query x, Query y => String.eqb x y
  | Within x i, Within y j => String.eqb x y && String.eqb i j
  | Created c x, Created d y => controller_eqb c d && String.eqb x y
  | _, _ => false
  end.

Definition facet_eqb (a b : facet) : bool :=
  match a, b with
  | ClassAttr, ClassAttr | Text, Text | Children, Children
  | FormValues, FormValues => true
  | StyleProp x, StyleProp y => String.eqb x y
  | _, _ => false
  end.

(** Two references surely reach a common element of a page that has one
    for each: they are the same reference, or one selector refines the
    other ([.nav-link[data-scroll]] selects among [.nav-link]).  Whether
    two unrelated selectors meet depends on the markup alone. *)
Definition same_element (a b : referent) : bool :=
  referent_eqb a b
  || match a, b with
     | Query x, Query y =>
         (String.eqb x ".nav-link[data-scroll]" && String.eqb y ".nav-link")
         || (String.eqb x ".nav-link" && String.eqb y ".nav-link[data-scroll]")
     | _, _ => false
     end.

Definition same_datum (a b : datum) : bool :=
  same_element (fst a) (fst b) && facet_eqb (snd a) (snd b).

(** The data that controller [c1] writes and that [c2] writes too. *)
Definition shared (c1 c2 : controller) : list datum :=
  filter (fun d => existsb (same_datum d) (writes c2)) (writes c1).

(** The specification's statement: no datum has two writers. *)
Definition disjoint_writes : Prop :=
  forall c1 c2, c1 <> c2 -> shared c1 c2 = [].

(** The data with more than one writer, as the source has them. *)
Definition is_page_scroll_lock (c : controller) (d : datum) : bool :=
  same_datum d (Body, StyleProp "overflow")
  && existsb (controller_eqb c) [Loader; Navigation; SearchModal].

Definition is_transient_node_list (c : controller) (d : datum) : bool :=
  (same_datum d (Head, Children) || same_datum d (Body, Children))
  && existsb (controller_eqb c) [FormHandler; GalleryLightbox].

Definition is_nav_link_marking (c : controller) (d : datum) : bool :=
  same_datum d (Query ".nav-link", ClassAttr)
  && existsb (controller_eqb c) [Navigation; ActiveNavLink].

Definition allowed_sharing (c1 c2 : controller) (d : datum) : bool :=
  (is_page_scroll_lock c1 d && is_page_scroll_lock c2 d)
  || (is_transient_node_list c1 d && is_transient_node_list c2 d)
  || (is_nav_link_marking c1 d && is_nav_link_marking c2 d).

(** Every datum two distinct controllers write is one of the three. *)
Definition sharing_by_design : bool :=
  forallb (fun c1 =>
    forallb (fun c2 =>
      controller_eqb c1 c2 || forallb (allowed_sharing c1 c2) (shared c1 c2))
      controllers)
    controllers.

End Footprint.

(* ================================================================== *)
(** ** The events of the testimonial carousel                          *)
(* ================================================================== *)

Module CarouselEvents.

Import TestimonialsSlider.

(** What can happen to the carousel once it is built: the pointer enters
    or leaves the slider, time passes, a dot is clicked. *)
Inductive event : Type :=
  | MouseEnter
  | MouseLeave
  | Elapse (ms : nat)
  | DotClick (index : nat).

(** A dot that does not exist has no listener; a listener that throws ends
    alone. *)
Definition step (s : t) (e : event) : t :=
  match e with
  | MouseEnter => on_mouseenter s
  | MouseLeave => on_mouseleave s
  | Elapse ms => elapse ms s
  | DotClick index =>
      if index <? List.length (dots s) then state_of (on_dot_click index s) else s
  end.

Definition run (events : list event) (s : t) : t := fold_left step events s.

(** The interval table holds one interval, of period 5000 ms, and
    [this.interval] is its handle. *)
Definition one_interval (s : t) : Prop :=
  exists h d, timers s = [mkTimer h d 5000] /\ interval s = Some h.

(** The state with another interval table and clock. *)
Definition at_time (table : list timer) (now : Z) (s : t) : t :=
  mkSlider (cards s) (dots s) (currentSlide s) (autoPlay s) (intervalTime s)
           (interval s) table (next_handle s) now.

(** The timer restarted a moment ago: its one interval falls due a full
    period from now. *)
Definition just_restarted (s : t) : Prop :=
  exists h, timers s = [mkTimer h (clock s + 5000)%Z 5000]
    /\ interval s = Some h /\ intervalTime s = 5000%Z.

(** A visit of the pointer: [fst] ms after the last restart of the timer
    it enters, [snd] ms later it leaves. *)
Definition visit (v : nat * nat) : list event :=
  [Elapse (fst v); MouseEnter; Elapse (snd v); MouseLeave].

(** What the page shows of the carousel. *)
Definition shown (s : t) : list Element * list Element * jsint :=
  (cards s, dots s, currentSlide s).

End CarouselEvents.

(* ================================================================== *)
(** ** Strings that parseInt reads                                     *)
(* ================================================================== *)

Module NumberText.

Fixpoint all_whitespace (s : string) : bool :=
  match s with
  | EmptyString => true
  | String c r => is_whitespace c && all_whitespace r
  end.

(** What may follow the digits of a decimal number for [parseInt] to stop
    there: nothing, or a character that is no decimal digit and, because
    of the prefix [0x], no [x] either. *)
Definition ends_number (rest : string) : bool :=
  match rest with
  | EmptyString => true
  | String c _ =>
      match digit_value c with
      | Some d => (10 <=? d)%Z && negb (Ascii.eqb c "x") && negb (Ascii.eqb c "X")
      | None => true
      end
  end.

(** The value of a sequence of decimal digits read from the left, [acc]
    being the value of the digits read before. *)
Fixpoint uint_value (d : Decimal.uint) (acc : Z) : Z :=
  match d with
  | Decimal.Nil => acc
  | Decimal.D0 l => uint_value l (acc * 10 + 0)
  | Decimal.D1 l => uint_value l (acc * 10 + 1)
  | Decimal.D2 l => uint_value l (acc * 10 + 2)
  | Decimal.D3 l => uint_value l (acc * 10 + 3)
  | Decimal.D4 l => uint_value l (acc * 10 + 4)
  | Decimal.D5 l => uint_value l (acc * 10 + 5)
  | Decimal.D6 l => uint_value l (acc * 10 + 6)
  | Decimal.D7 l => uint_value l (acc * 10 + 7)
  | Decimal.D8 l => uint_value l (acc * 10 + 8)
  | Decimal.D9 l => uint_value l (acc * 10 + 9)
  end%Z.

End NumberText.

(* ================================================================== *)
(** ** Opening and dismissing lightboxes in turn                       *)
(* ================================================================== *)

Module LightboxCycles.

Import GalleryLightbox.

(** One visit of the gallery: a picture is opened and then dismissed. *)
Definition cycle (d : document) (v : image * dismissal) : document :=
  dismiss_by (snd v) (new_overlay d) (state_of (openLightbox (Some (fst v)) d)).

Definition cycles (visits : list (image * dismissal)) (d : document) : document :=
  fold_left cycle visits d.

(** No node of the document has the identity [n]. *)
Definition unused (n : nat) (d : document) : Prop :=
  forall x, In x (all_nodes d) -> id x <> n.

(** A document as the controller finds and leaves it between two visits:
    identities are handed out in order, and the overlays that the
    [keydown] listeners still hold are all gone from the document. *)
Definition settled (d : document) : Prop :=
  (forall x, In x (all_nodes d) -> id x < fresh d)
  /\ (forall o, In o (keydown d) ->
        lightbox o < fresh d /\ injected o < fresh d
        /\ unused (lightbox o) d /\ unused (injected o) d).

End LightboxCycles.

(* ================================================================== *)
(** ** Utils                                                           *)
(* ================================================================== *)

Module Utils.

Section RateLimit.

(** The wrapped function takes arguments of type [A] and acts on the part
    [S] of the page; it is taken to return (a [func] that throws leaves
    [throttle] without its flag set). *)
Variables A S : Type.
Variable func : A -> S -> S.

(** [setTimeout(f, ms)] runs [f] no sooner than [ms] ms later, and at once
    for a negative [ms]. *)
Definition delay (ms : Z) : Z := Z.max 0 ms.

(** *** [Utils.throttle(func, limit)] *)

(** The closure: the flag [inThrottle], the time at which the timeout that
    clears it falls due, and the state [func] acts on. *)
Record throttled : Type := mkThrottled {
  inThrottle : bool;
  clears_at  : option Z;
  throttled_state : S
}.

Definition throttle (s : S) : throttled := mkThrottled false None s.

(** The timeout [() => inThrottle = false], once it has fallen due. *)
Definition throttle_timeout (now : Z) (t : throttled) : throttled :=
  match clears_at t with
  | Some due =>
      if (due <=? now)%Z then mkThrottled false None (throttled_state t) else t
  | None => t
  end.

(** The returned function, called at time [now] with [args]. *)
Definition throttle_call (limit : Z) (t : throttled) (call : Z * A) : throttled :=
  let '(now, args) := call in
  let t := throttle_timeout now t in
  if negb (inThrottle t)
  then mkThrottled true (Some (now + delay limit)%Z) (func args (throttled_state t))
  else t.

Definition throttle_calls (limit : Z) (calls : list (Z * A)) (t : throttled) : throttled :=
  fold_left (throttle_call limit) calls t.

(** The calls that get through: the first one, and then each call that
    comes [limit] ms or more after the last one that got through. *)
Fixpoint let_through (limit : Z) (last : option Z) (calls : list (Z * A))
  : list (Z * A) :=
  match calls with
  | [] => []
  | (now, args) :: rest =>
      match last with
      | Some t =>
          if (t + delay limit <=? now)%Z
          then (now, args) :: let_through limit (Some now) rest
          else let_through limit last rest
      | None => (now, args) :: let_through limit (Some now) rest
      end
  end.

(** *** [Utils.debounce(func, wait)] *)

(** The closure: the pending timeout, with the time it falls due and the
    arguments its [later] holds, and the state [func] acts on. *)
Record debounced : Type := mkDebounced {
  timeout : option (Z * A);
  debounced_state : S
}.

Definition debounce (s : S) : debounced := mkDebounced None s.

(** [later], once its timeout has fallen due. *)
Definition debounce_timeout (now : Z) (d : debounced) : debounced :=
  match timeout d with
  | Some (due, args) =>
      if (due <=? now)%Z then mkDebounced None (func args (debounced_state d)) else d
  | None => d
  end.

(** [executedFunction], called at time [now] with [args]: the pending
    timeout is cleared and a new one is set. *)
Definition debounce_call (wait : Z) (d : debounced) (call : Z * A) : debounced :=
  let '(now, args) := call in
  let d := debounce_timeout now d in
  mkDebounced (Some ((now + delay wait)%Z, args)) (debounced_state d).

Definition debounce_calls (wait : Z) (calls : list (Z * A)) (d : debounced) : debounced :=
  fold_left (debounce_call wait) calls d.

(** The calls whose timeout lives to run: each call that the next one
    follows [wait] ms later or more, and the last call if it is [wait] ms
    old at the time [until]. *)
Fixpoint followed_by_silence (wait until : Z) (calls : list (Z * A)) : list (Z * A) :=
  match calls with
  | [] => []
  | (now, args) :: rest =>
      let next := match rest with (t, _) :: _ => t | [] => until end in
      if (now + delay wait <=? next)%Z
      then (now, args) :: followed_by_silence wait until rest
      else followed_by_silence wait until rest
  end.

(** Calls in a burst: each one comes less than [wait] ms after the one
    before it. *)
Fixpoint burst (wait : Z) (calls : list (Z * A)) : Prop :=
  match calls with
  | [] => True
  | (t, _) :: rest =>
      match rest with
      | [] => True
      | (t', _) :: _ => (t' < t + delay wait)%Z /\ burst wait rest
      end
  end.

(** [func] applied to the arguments of the calls, in order. *)
Definition apply_all (calls : list (Z * A)) (s : S) : S :=
  fold_left (fun acc call => func (snd call) acc) calls s.

End RateLimit.

Arguments mkThrottled {S}.
Arguments inThrottle {S}.
Arguments clears_at {S}.
Arguments throttled_state {S}.
Arguments throttle {S}.
Arguments throttle_timeout {S}.
Arguments throttle_call {A S}.
Arguments throttle_calls {A S}.
Arguments let_through {A}.
Arguments mkDebounced {A S}.
Arguments timeout {A S}.
Arguments debounced_state {A S}.
Arguments debounce A {S}.
Arguments debounce_timeout {A S}.
Arguments debounce_call {A S}.
Arguments debounce_calls {A S}.
Arguments followed_by_silence {A}.
Arguments burst {A}.
Arguments apply_all {A S}.

(** What the closure of [throttle] holds after calls of which the last to
    get through came at time [last]. *)
Module Throttle.

Definition after {S : Type} (limit : Z) (last : option Z) (s : S) : throttled S :=
  match last with
  | Some t => mkThrottled true (Some (t + delay limit)%Z) s
  | None => throttle s
  end.

End Throttle.

(** *** [Utils.isInViewport(element)] *)

(** [element.getBoundingClientRect()] *)
Record DOMRect : Type := mkRect {
  top    : Q;
  left   : Q;
  bottom : Q;
  right  : Q
}.

(** The sizes the test reads: of the window, and of the root element. *)
Record sizes : Type := mkSizes {
  innerHeight  : Q;
  innerWidth   : Q;
  clientHeight : Q;
  clientWidth  : Q
}.

(** [a || b] on Numbers: [b] when [a] is zero. *)
Definition or_else (a b : Q) : Q := if Qeq_bool a 0 then b else a.

Definition isInViewport (rect : DOMRect) (w : sizes) : bool :=
  Qle_bool 0 (top rect)
  && Qle_bool 0 (left rect)
  && Qle_bool (bottom rect) (or_else (innerHeight w) (clientHeight w))
  && Qle_bool (right rect) (or_else (innerWidth w) (clientWidth w)).

End Utils.

(* ================================================================== *)
(** ** Navigation                                                      *)
(* ================================================================== *)

(** A navigation link: the element, and its [href] attribute as
    [getAttribute('href')] returns it ([null] is [None]). *)
Record NavLink : Type := mkNavLink {
  anchor : Element;
  href   : option string
}.

Definition link_with_classList (f : ClassList.t -> ClassList.t) (l : NavLink) : NavLink :=
  mkNavLink (with_classList f (anchor l)) (href l).

Definition link_active (l : NavLink) : bool := has_class "active" (anchor l).

Module Navigation.

(** What the constructor holds: three elements looked up by id, each
    [null] when the page has none, the in-page links, the dropdown items,
    [document.body], and the last scroll the controller asked the window
    for. *)
Record t : Type := mkNavigation {
  navbar         : option Element;
  hamburger      : option Element;
  navMenu        : option Element;
  navLinks       : list NavLink;
  dropdownItems  : list Element;
  body           : Element;
  scroll_request : option Q
}.

(** What the handlers read of the window: [scrollY] (also [pageYOffset])
    and [innerWidth]. *)
Record window : Type := mkWindow {
  scrollY    : Q;
  innerWidth : Z
}.

(** The outcome of [document.querySelector(targetId)]: an element, with
    the [top] of its bounding rectangle; [null]; or a [SyntaxError] for a
    text that is no selector. *)
Inductive lookup : Type :=
  | Found (rect_top : Q)
  | NotFound
  | InvalidSelector.

(** The function throttled in [handleScroll()]. *)
Definition on_scroll (w : window) (s : t) : completion t :=
  match navbar s with
  | None => Throw "TypeError: this.navbar is null" s
  | Some bar =>
      let bar' :=
        if Qlt_le_dec 50 (scrollY w)
        then with_classList (ClassList.add "scrolled") bar
        else with_classList (ClassList.remove "scrolled") bar in
      Normal (mkNavigation (Some bar') (hamburger s) (navMenu s) (navLinks s)
                (dropdownItems s) (body s) (scroll_request s))
  end.

(** The click listener of the hamburger, registered only if there is one. *)
Definition on_hamburger_click (s : t) : completion t :=
  match hamburger s with
  | None => Normal s
  | Some h =>
      let h' := with_classList (ClassList.toggle "active") h in
      match navMenu s with
      | None =>
          Throw "TypeError: this.navMenu is null"
            (mkNavigation (navbar s) (Some h') None (navLinks s)
               (dropdownItems s) (body s) (scroll_request s))
      | Some m =>
          let m' := with_classList (ClassList.toggle "active") m in
          let overflow := if has_class "active" m' then "hidden" else "" in
          Normal (mkNavigation (navbar s) (Some h') (Some m') (navLinks s)
                    (dropdownItems s)
                    (set_style "overflow" (Lit overflow) (body s))
                    (scroll_request s))
      end
  end.

(** The click listener of the link of the dropdown item [i]. *)
Definition on_dropdown_click (w : window) (i : nat) (s : t) : t :=
  if (innerWidth w <=? 1024)%Z
  then mkNavigation (navbar s) (hamburger s) (navMenu s) (navLinks s)
         (update_nth i (with_classList (ClassList.toggle "active")) (dropdownItems s))
         (body s) (scroll_request s)
  else s.

(** [Utils.scrollTo(element)], with its default offset of 80. *)
Definition scrollTo (w : window) (rect_top : Q) : Q :=
  let elementPosition := (rect_top + scrollY w)%Q in
  (elementPosition - 80)%Q.

(** The click listener of the in-page link [i]; [find] is
    [document.querySelector] on the page. *)
Definition on_nav_link_click
  (find : option string -> lookup) (w : window) (i : nat) (s : t) : completion t :=
  match nth_error (navLinks s) i with
  | None => Normal s
  | Some link =>
      match find (href link) with
      | InvalidSelector => Throw "SyntaxError: not a valid selector" s
      | NotFound => Normal s
      | Found rect_top =>
          let links :=
            update_nth i (link_with_classList (ClassList.add "active"))
              (map (link_with_classList (ClassList.remove "active")) (navLinks s)) in
          let request := Some (scrollTo w rect_top) in
          if (innerWidth w <=? 1024)%Z
          then
            match hamburger s with
            | None =>
                Throw "TypeError: this.hamburger is null"
                  (mkNavigation (navbar s) None (navMenu s) links
                     (dropdownItems s) (body s) request)
            | Some h =>
                let h' := with_classList (ClassList.remove "active") h in
                match navMenu s with
                | None =>
                    Throw "TypeError: this.navMenu is null"
                      (mkNavigation (navbar s) (Some h') None links
                         (dropdownItems s) (body s) request)
                | Some m =>
                    Normal (mkNavigation (navbar s) (Some h')
                              (Some (with_classList (ClassList.remove "active") m))
                              links (dropdownItems s)
                              (set_style "overflow" (Lit "") (body s)) request)
                end
            end
          else
            Normal (mkNavigation (navbar s) (hamburger s) (navMenu s) links
                      (dropdownItems s) (body s) request)
      end
  end.

(** [n] clicks on the hamburger. *)
Definition hamburger_clicks (n : nat) (s : t) : t :=
  Nat.iter n (fun acc => state_of (on_hamburger_click acc)) s.

(** Whether an element that may be missing carries a class. *)
Definition carries (tok : string) (e : option Element) : bool :=
  match e with
  | Some x => has_class tok x
  | None => false
  end.

Definition with_body (b : Element) (s : t) : t :=
  mkNavigation (navbar s) (hamburger s) (navMenu s) (navLinks s)
    (dropdownItems s) b (scroll_request s).

End Navigation.

(* ================================================================== *)
(** ** ActiveNavLink                                                   *)
(* ================================================================== *)

Module ActiveNavLink.

(** The body of the [forEach] in [updateActiveLink(sectionId)]. *)
Definition mark (sectionId : string) (link : NavLink) : NavLink :=
  let cleared := link_with_classList (ClassList.remove "active") link in
  if strict_eq (href link) (Some ("#" ++ sectionId)%string)
  then link_with_classList (ClassList.add "active") cleared
  else cleared.

(** [updateActiveLink(sectionId)], over the [.nav-link] of the page. *)
Definition updateActiveLink (sectionId : string) (links : list NavLink) : list NavLink :=
  map (mark sectionId) links.

(** An entry handed to the observer's callback: whether the section
    intersects, and the [id] of the section. *)
Record entry : Type := mkEntry {
  isIntersecting : bool;
  target_id      : string
}.

(** The callback given to the [IntersectionObserver]. *)
Definition on_intersection (entries : list entry) (links : list NavLink) : list NavLink :=
  fold_left
    (fun acc e => if isIntersecting e then updateActiveLink (target_id e) acc else acc)
    entries links.

(** The section of the last entry of the batch that intersects. *)
Definition last_intersecting (entries : list entry) : option string :=
  fold_left (fun acc e => if isIntersecting e then Some (target_id e) else acc)
            entries None.

End ActiveNavLink.

(* ================================================================== *)
(** ** One body for all controllers                                    *)
(* ================================================================== *)

Module Page.

(** [document.body] is one element: Navigation and SearchModal each reach
    it, and a handler of either reads and writes the same inline style. *)
Record t : Type := mkPage {
  body   : Element;
  nav    : Navigation.t;
  search : SearchModal.t
}.

Definition search_with_body (b : Element) (s : SearchModal.t) : SearchModal.t :=
  SearchModal.mkSearch (SearchModal.searchBtn s) (SearchModal.searchModal s)
    (SearchModal.searchClose s) (SearchModal.searchInput s)
    (SearchModal.modal s) b (SearchModal.focus_pending s).

(** A handler of Navigation runs on the page. *)
Definition by_navigation (h : Navigation.t -> completion Navigation.t) (p : t) : t :=
  let n := state_of (h (Navigation.with_body (body p) (nav p))) in
  mkPage (Navigation.body n) n (search p).

(** A handler of SearchModal runs on the page. *)
Definition by_search (h : SearchModal.t -> SearchModal.t) (p : t) : t :=
  let s := h (search_with_body (body p) (search p)) in
  mkPage (SearchModal.body s) (nav p) s.

Definition menu_open (p : t) : bool :=
  Navigation.carries "active" (Navigation.navMenu (nav p)).

Definition overlay_open (p : t) : bool := SearchModal.is_open (search p).

Definition scroll_locked (p : t) : bool :=
  match get_style "overflow" (body p) with
  | Lit "hidden" => true
  | _ => false
  end.

End Page.

(* ================================================================== *)
(** ** FormHandler                                                     *)
(* ================================================================== *)

Module FormHandler.

Inductive which : Type :=
  | Contact
  | Newsletter.

(** A form: the values of its controls, the values [reset()] gives them
    back, and whether it holds an [input[type="email"]]. *)
Record form : Type := mkForm {
  values      : list string;
  defaults    : list string;
  email_input : bool
}.

(** [form.reset()] *)
Definition reset (f : form) : form :=
  mkForm (defaults f) (defaults f) (email_input f).

(** A child of [document.head] or [document.body]: identity, tag,
    [className], and for a notification the message it shows. *)
Record node : Type := mkNode {
  id        : nat;
  tag       : string;
  className : string;
  message   : string
}.

(** What waits for its time: the promise of [simulateLoading()], which
    resumes the submit handler of a form, and the timeout of
    [showNotification], which removes the two nodes it added. *)
Inductive task : Type :=
  | Loaded (due : Z) (submitted : which)
  | Expire (due : Z) (notification style : nat).

Definition due_of (k : task) : Z :=
  match k with
  | Loaded due _ => due
  | Expire due _ _ => due
  end.

Record t : Type := mkForms {
  contactForm    : option form;
  newsletterForm : option form;
  head           : list node;
  body           : list node;
  fresh          : nat;
  tasks          : list task;
  clock          : Z
}.

Definition form_of (w : which) (s : t) : option form :=
  match w with
  | Contact => contactForm s
  | Newsletter => newsletterForm s
  end.

Definition set_form (w : which) (f : option form) (s : t) : t :=
  match w with
  | Contact =>
      mkForms f (newsletterForm s) (head s) (body s) (fresh s) (tasks s) (clock s)
  | Newsletter =>
      mkForms (contactForm s) f (head s) (body s) (fresh s) (tasks s) (clock s)
  end.

Definition success_message (w : which) : string :=
  match w with
  | Contact => "Thank you! Your message has been sent successfully."
  | Newsletter => "Successfully subscribed to our newsletter!"
  end.

(** [simulateLoading()], awaited: the handler resumes 1000 ms later. *)
Definition simulateLoading (w : which) (s : t) : t :=
  mkForms (contactForm s) (newsletterForm s) (head s) (body s) (fresh s)
          (tasks s ++ [Loaded (clock s + 1000) w]) (clock s).

(** The submit listener of a form, up to its [await]; a form that is not
    on the page has no listener.  [handleNewsletterSubmit] reads the value
    of the form's email input first, and throws where there is none. *)
Definition on_submit (w : which) (s : t) : completion t :=
  match form_of w s with
  | None => Normal s
  | Some f =>
      match w with
      | Contact => Normal (simulateLoading w s)
      | Newsletter =>
          if email_input f then Normal (simulateLoading w s)
          else Throw "TypeError: form.querySelector(...) is null" s
      end
  end.

(** [showNotification(message, 'success')] *)
Definition showNotification (text : string) (s : t) : t :=
  let notification := mkNode (fresh s) "div" "notification success" text in
  let style := mkNode (S (fresh s)) "style" "" "" in
  mkForms (contactForm s) (newsletterForm s)
          (head s ++ [style]) (body s ++ [notification])
          (S (S (fresh s)))
          (tasks s ++ [Expire (clock s + 3000) (id notification) (id style)])
          (clock s).

Definition detach (n : nat) (l : list node) : list node :=
  filter (fun x => negb (Nat.eqb (id x) n)) l.

(** A task that has fallen due. *)
Definition run_task (s : t) (k : task) : t :=
  match k with
  | Loaded _ w =>
      let s1 := showNotification (success_message w) s in
      set_form w (option_map reset (form_of w s1)) s1
  | Expire _ notification style =>
      mkForms (contactForm s) (newsletterForm s)
              (detach style (detach notification (head s)))
              (detach style (detach notification (body s)))
              (fresh s) (tasks s) (clock s)
  end.

(** One millisecond passes: the tasks that fall due run, in the order in
    which they were set. *)
Definition millisecond (s : t) : t :=
  let now := (clock s + 1)%Z in
  let due_now := filter (fun k => (due_of k =? now)%Z) (tasks s) in
  let later := filter (fun k => negb (due_of k =? now)%Z) (tasks s) in
  fold_left run_task due_now
    (mkForms (contactForm s) (newsletterForm s) (head s) (body s) (fresh s)
             later now).

Definition elapse (ms : nat) (s : t) : t := Nat.iter ms millisecond s.

(** The user changes the controls of a form. *)
Definition type_in (w : which) (v : list string) (s : t) : t :=
  set_form w
    (option_map (fun f => mkForm v (defaults f) (email_input f)) (form_of w s)) s.

(** The state at another time of the clock. *)
Definition at_clock (now : Z) (s : t) : t :=
  mkForms (contactForm s) (newsletterForm s) (head s) (body s) (fresh s)
          (tasks s) now.

(** The notifications the page shows. *)
Definition notifications (s : t) : list node :=
  filter (fun x => String.eqb (className x) "notification success") (body s).

(** Nothing is pending, and identities are handed out in order. *)
Definition quiet (s : t) : Prop :=
  tasks s = []
  /\ forall x, In x (head s ++ body s) -> id x < fresh s.

End FormHandler.

(* ================================================================== *)
(** ** initApp                                                         *)
(* ================================================================== *)

Module Bootstrap.

Import Footprint.

(** What the constructors dereference without a check, of the page and
    of the browser. *)
Record page : Type := mkPage {
  dropdowns_hold_a_link    : bool;  (* each [.nav-item.dropdown] holds a [.nav-link] *)
  has_IntersectionObserver : bool;  (* [window.IntersectionObserver] *)
  has_slider_dots          : bool;  (* [.slider-dots] *)
  has_testimonials_slider  : bool;  (* [.testimonials-slider] *)
  has_backToTop            : bool   (* [#backToTop] *)
}.

(** Whether [new C()] returns on that page.  Navigation adds a listener to
    the link of each dropdown item; CounterAnimation and ActiveNavLink
    call [new IntersectionObserver] (ScrollAnimations tests for it first);
    TestimonialsSlider writes [.slider-dots] and listens on
    [.testimonials-slider]; BackToTop listens on [#backToTop].  The other
    constructors guard what may be missing or touch nothing. *)
Definition constructs (c : controller) (p : page) : bool :=
  match c with
  | Navigation => dropdowns_hold_a_link p
  | CounterAnimation => has_IntersectionObserver p
  | TestimonialsSlider => has_slider_dots p && has_testimonials_slider p
  | BackToTop => has_backToTop p
  | ActiveNavLink => has_IntersectionObserver p
  | _ => true
  end.

(** The [new] statements of [initApp], in order: the first constructor
    that throws ends the function.  The result is the controllers built
    and whether [console.log] was reached. *)
Fixpoint construct_all (cs : list controller) (p : page) : list controller * bool :=
  match cs with
  | [] => ([], true)
  | c :: rest =>
      if constructs c p
      then let '(built, logged) := construct_all rest p in (c :: built, logged)
      else ([], false)
  end.

Definition initApp (p : page) : list controller * bool :=
  construct_all controllers p.

Definition complete (p : page) : bool :=
  dropdowns_hold_a_link p && has_IntersectionObserver p && has_slider_dots p
  && has_testimonials_slider p && has_backToTop p.

End Bootstrap.

(* ================================================================== *)
(** ** ParallaxEffect                                                  *)
(* ================================================================== *)

Module ParallaxEffect.

(** A background layer, as far as the handler writes it: the [translateY]
    of its inline transform, in px ([None] while never assigned). *)
Record layer : Type := mkLayer {
  translateY : option Q
}.

(** [.hero-content]: its inline opacity and the [translateY] of its
    transform. *)
Record hero : Type := mkHero {
  opacity : option jsreal;
  shift   : option Q
}.

Record t : Type := mkParallax {
  mountains : list layer;
  clouds    : list layer;
  content   : option hero
}.

(** [layers.forEach((layer, index) => { const speed = (index + 1) * unit;
    layer.style.transform = `translateY(${scrollY * speed}px)` })], the
    decimal fractions read as rationals. *)
Fixpoint place (unit scrollY : Q) (index : nat) (layers : list layer) : list layer :=
  match layers with
  | [] => []
  | _ :: rest =>
      let speed := (inject_Z (Z.of_nat index + 1) * unit)%Q in
      mkLayer (Some (scrollY * speed)%Q) :: place unit scrollY (S index) rest
  end.

(** [1 - (scrollY / heroHeight) * 1.5] *)
Definition fade (scrollY heroHeight : Q) : jsreal :=
  jsreal_sub (Fin 1)
    (jsreal_mul (jsreal_div (Fin scrollY) (Fin heroHeight)) (Fin (15 # 10))).

(** The function throttled in [init()]; [heroHeight] is
    [window.innerHeight]. *)
Definition on_scroll (scrollY heroHeight : Q) (s : t) : t :=
  if Qlt_le_dec scrollY heroHeight
  then mkParallax
         (place (1 # 10) scrollY 0 (mountains s))
         (place (5 # 100) scrollY 0 (clouds s))
         (match content s with
          | Some _ =>
              Some (mkHero (Some (fade scrollY heroHeight))
                           (Some (scrollY * (3 # 10))%Q))
          | None => None
          end)
  else s.

(** The offset assigned to the layer [i], if there is such a layer. *)
Definition offset (i : nat) (layers : list layer) : option Q :=
  match nth_error layers i with
  | Some l => translateY l
  | None => None
  end.

End ParallaxEffect.

(* ================================================================== *)
(** ** Sample pages                                                    *)
(* ================================================================== *)

Module Samples.

(** The search overlay of [SearchModal.search_page_open], closed. *)
Definition search_page_closed : SearchModal.t :=
  SearchModal.mkSearch (Some 1) (Some 2) (Some 4) (Some 5)
    (mkElement ["search-modal"] [] [] "") createElement false.

(** The navigation of a phone-sized page: bar, hamburger, closed menu and
    two in-page links. *)
Definition mobile_nav : Navigation.t :=
  Navigation.mkNavigation (Some (mkElement ["navbar"] [] [] ""))
    (Some (mkElement ["hamburger"] [] [] ""))
    (Some (mkElement ["nav-menu"] [] [] ""))
    [mkNavLink (mkElement ["nav-link"; "active"] [("scroll", "")] [] "Home") (Some "#home");
     mkNavLink (mkElement ["nav-link"] [("scroll", "")] [] "Tours") (Some "#tours")]
    [] createElement None.

(** A page with a filled-in contact form, and a newsletter form that has
    no email input. *)
Definition contact_page : FormHandler.t :=
  FormHandler.mkForms
    (Some (FormHandler.mkForm ["Ada"; "ada@example.org"; "Hello"] [""; ""; ""] true))
    (Some (FormHandler.mkForm [""] [""] false))
    [FormHandler.mkNode 0 "title" "" ""]
    [FormHandler.mkNode 1 "form" "contact-form" ""] 2 [] 0.

End Samples.

(* ================================================================== *)
(** * Properties                                                       *)
(* ================================================================== *)

(* ------------------------------------------------------------------ *)
(** *** Facts about class lists                                        *)
(* ------------------------------------------------------------------ *)

Lemma contains_In tok l : ClassList.contains tok l = true <-> In tok l.
Proof.
  unfold ClassList.contains. rewrite existsb_exists. split.
  - intros [x [Hin Heq]]. apply String.eqb_eq in Heq. now subst.
  - intros Hin. exists tok. split; [assumption | apply String.eqb_refl].
Qed.

Lemma contains_remove_same tok l :
  ClassList.contains tok (ClassList.remove tok l) = false.
Proof.
  apply not_true_is_false. rewrite contains_In. unfold ClassList.remove.
  rewrite filter_In. intros [_ H]. now rewrite String.eqb_refl in H.
Qed.

Lemma contains_remove_other tok tok' l :
  tok <> tok' ->
  ClassList.contains tok' (ClassList.remove tok l) = ClassList.contains tok' l.
Proof.
  intros Hne. apply eq_true_iff_eq. rewrite !contains_In.
  unfold ClassList.remove. rewrite filter_In. split.
  - now intros [H _].
  - intros H. split; [assumption |].
    destruct (String.eqb_spec tok tok'); [contradiction | reflexivity].
Qed.

Lemma contains_add_same tok l :
  ClassList.contains tok (ClassList.add tok l) = true.
Proof.
  unfold ClassList.add. destruct (ClassList.contains tok l) eqn:E; [assumption |].
  rewrite contains_In, in_app_iff. right. now left.
Qed.

Lemma contains_add_other tok tok' l :
  tok <> tok' ->
  ClassList.contains tok' (ClassList.add tok l) = ClassList.contains tok' l.
Proof.
  intros Hne. unfold ClassList.add.
  destruct (ClassList.contains tok l); [reflexivity |].
  apply eq_true_iff_eq. rewrite !contains_In, in_app_iff. split.
  - intros [H | [H | []]]; [assumption | now subst].
  - intros H. now left.
Qed.

Lemma remove_absent tok l :
  ClassList.contains tok l = false -> ClassList.remove tok l = l.
Proof.
  unfold ClassList.contains, ClassList.remove.
  induction l as [| x r IH]; simpl; [reflexivity |].
  intros H. apply orb_false_iff in H. destruct H as [Hx Hr].
  rewrite Hx. simpl. now rewrite IH.
Qed.

Lemma remove_app_absent tok l :
  ClassList.contains tok l = false -> ClassList.remove tok (l ++ [tok]) = l.
Proof.
  intros H. unfold ClassList.remove. rewrite filter_app. simpl.
  rewrite String.eqb_refl. simpl. rewrite app_nil_r.
  now apply remove_absent.
Qed.

Lemma has_class_add_same tok e :
  has_class tok (with_classList (ClassList.add tok) e) = true.
Proof. apply contains_add_same. Qed.

Lemma has_class_remove_same tok e :
  has_class tok (with_classList (ClassList.remove tok) e) = false.
Proof. apply contains_remove_same. Qed.

(* ------------------------------------------------------------------ *)
(** *** Marking one element of a collection                            *)
(* ------------------------------------------------------------------ *)

Lemma length_update_nth {A : Type} i (f : A -> A) l :
  List.length (update_nth i f l) = List.length l.
Proof.
  revert i. induction l as [| x r IH]; intros [| j]; simpl; auto.
Qed.

Lemma length_remove_class_all tok l :
  List.length (remove_class_all tok l) = List.length l.
Proof. apply length_map. Qed.

Lemma count_class_cleared tok l :
  count_class tok (remove_class_all tok l) = 0.
Proof.
  unfold count_class, remove_class_all.
  induction l as [| x r IH]; simpl; [reflexivity |].
  now rewrite has_class_remove_same.
Qed.

(** Clearing a token everywhere and adding it at one position in range
    leaves exactly one element that carries it. *)
Lemma count_class_marked tok l i :
  i < List.length l ->
  count_class tok
    (update_nth i (with_classList (ClassList.add tok)) (remove_class_all tok l)) = 1.
Proof.
  revert i. induction l as [| x r IH]; intros i Hi; simpl in Hi; [lia |].
  destruct i as [| j]; unfold count_class in *; simpl.
  - rewrite has_class_add_same. simpl. f_equal.
    apply (count_class_cleared tok r).
  - rewrite has_class_remove_same. apply IH. lia.
Qed.

Lemma nth_error_in_range {A : Type} (l : list A) i :
  i < List.length l -> exists x, nth_error l i = Some x.
Proof.
  intros H. destruct (nth_error l i) eqn:E; [eauto |].
  apply nth_error_None in E. lia.
Qed.

Lemma js_index_in_range {A : Type} (l : list A) z :
  (0 <= z < Z.of_nat (List.length l))%Z -> exists x, js_index l (Int z) = Some x.
Proof.
  intros H. simpl. destruct (Z.ltb_spec z 0); [lia |].
  apply nth_error_in_range. lia.
Qed.

(* ------------------------------------------------------------------ *)
(** *** The testimonial carousel                                       *)
(* ------------------------------------------------------------------ *)

Section Carousel.

Import TestimonialsSlider.

Lemma construct_standing (markup_cards markup_dots : list Element) :
  1 <= List.length markup_cards ->
  standing (List.length markup_cards) 0 (construct markup_cards markup_dots).
Proof.
  intros Hn. unfold standing, construct, startAutoPlay, createDots. simpl.
  rewrite length_map, length_seq. repeat split; try reflexivity; lia.
Qed.

(** Jumping to a slide in range returns, stands there, and marks exactly
    one card and one dot. *)
Lemma goToSlide_in_range n c i s :
  List.length (cards s) = n -> List.length (dots s) = n ->
  (0 <= i < Z.of_nat n)%Z ->
  currentSlide s = Int c ->
  exists s', goToSlide (Int i) s = Normal s'
    /\ standing n i s'
    /\ count_class "active" (cards s') = 1
    /\ count_class "active" (dots s') = 1.
Proof.
  intros Hc Hd Hi _. unfold goToSlide. cbn [cards dots set_cards set_dots].
  destruct (js_index_in_range (remove_class_all "active" (cards s)) i) as [x Hx].
  { rewrite length_remove_class_all. lia. }
  rewrite Hx.
  destruct (js_index_in_range (remove_class_all "active" (dots s)) i) as [y Hy].
  { rewrite length_remove_class_all. lia. }
  rewrite Hy. eexists. split; [reflexivity |].
  unfold standing, add_class_at. cbn.
  rewrite !length_update_nth, !length_remove_class_all.
  repeat split; try assumption; try lia;
    apply count_class_marked; lia.
Qed.

Lemma advance_standing n c s :
  standing n c s ->
  exists s', advance s = Normal s'
    /\ standing n ((c + 1) mod Z.of_nat n) s'
    /\ count_class "active" (cards s') = 1
    /\ count_class "active" (dots s') = 1.
Proof.
  intros (Hc & Hd & Hcur & Hrange). unfold advance.
  cbn [currentSlide set_currentSlide cards]. rewrite Hcur, Hc. simpl js_succ.
  unfold js_rem. destruct (Z.eqb_spec (Z.of_nat n) 0) as [E | E]; [lia |].
  rewrite Z.rem_mod_nonneg by lia.
  apply goToSlide_in_range with (c := ((c + 1) mod Z.of_nat n)%Z).
  - exact Hc.
  - exact Hd.
  - apply Z.mod_pos_bound. lia.
  - reflexivity.
Qed.

Lemma fire_standing n c s :
  standing n c s ->
  returns (advance s) = true
  /\ standing n ((c + 1) mod Z.of_nat n) (fire s)
  /\ count_class "active" (cards (fire s)) = 1
  /\ count_class "active" (dots (fire s)) = 1.
Proof.
  intros H. destruct (advance_standing n c s H) as (s' & E & Hs & Hk & Hd).
  unfold fire. rewrite E. simpl. auto.
Qed.

Lemma ticks_standing n s k :
  standing n 0 s ->
  standing n (Z.of_nat k mod Z.of_nat n) (ticks k s).
Proof.
  intros H0. induction k as [| k IH].
  - simpl. rewrite Z.mod_0_l; [exact H0 |]. destruct H0 as (_ & _ & _ & ?). lia.
  - change (ticks (S k) s) with (fire (ticks k s)).
    destruct (fire_standing _ _ _ IH) as (_ & Hs & _).
    replace (Z.of_nat (S k) mod Z.of_nat n)%Z
      with ((Z.of_nat k mod Z.of_nat n + 1) mod Z.of_nat n)%Z; [exact Hs |].
    destruct H0 as (_ & _ & _ & ?).
    rewrite Nat2Z.inj_succ. unfold Z.succ.
    rewrite Zplus_mod_idemp_l. reflexivity.
Qed.

(** C5. For every number N >= 1 of testimonial cards, whatever classes the
    markup gives them and whatever dots it holds, the carousel is built at
    slide 0; each timed advance returns normally and leaves exactly one
    card and exactly one dot marked [active]; and after N timed advances
    the current slide is 0 again. *)
Theorem carousel_cycle (markup_cards markup_dots : list Element) :
  1 <= List.length markup_cards ->
  let n := List.length markup_cards in
  let s0 := construct markup_cards markup_dots in
  currentSlide s0 = Int 0
  /\ currentSlide (ticks n s0) = Int 0
  /\ forall k,
       returns (advance (ticks k s0)) = true
       /\ count_class "active" (cards (ticks (S k) s0)) = 1
       /\ count_class "active" (dots (ticks (S k) s0)) = 1.
Proof.
  intros Hn n s0.
  pose proof (construct_standing markup_cards markup_dots Hn) as H0.
  fold n s0 in H0.
  split; [apply H0 |]. split.
  - destruct (ticks_standing n s0 n H0) as (_ & _ & Hcur & _).
    rewrite Hcur. f_equal. apply Z.mod_same. lia.
  - intros k. pose proof (ticks_standing n s0 k H0) as Hk.
    destruct (fire_standing _ _ _ Hk) as (Hret & _ & Hc & Hd).
    change (ticks (S k) s0) with (fire (ticks k s0)). auto.
Qed.

Lemma carousel_cycle_witness :
  1 <= List.length three_cards
  /\ currentSlide (ticks 3 (create three_cards)) = Int 0
  /\ count_class "active" (cards (ticks 2 (create three_cards))) = 1.
Proof.
  assert (H : 1 <= List.length three_cards) by (simpl; lia).
  split; [exact H |].
  pose proof (carousel_cycle three_cards [] H) as T. simpl in T.
  destruct T as (_ & Hback & Heach). split.
  - exact Hback.
  - exact (proj1 (proj2 (Heach 1))).
Defined.

(** The carousel over no card at all: the state a timed advance leaves has
    [NaN] for its current slide. *)
Lemma empty_carousel_ticks k :
  cards (ticks k (create [])) = []
  /\ dots (ticks k (create [])) = []
  /\ (k <> 0 -> currentSlide (ticks k (create [])) = NaN).
Proof.
  induction k as [| k (Hc & Hd & Hcur)].
  - repeat split; try reflexivity. intros H; now elim H.
  - change (ticks (S k) (create [])) with (fire (ticks k (create []))).
    unfold fire, advance, goToSlide.
    cbn [cards dots currentSlide set_cards set_dots set_currentSlide].
    rewrite Hc, Hd. simpl.
    assert (E : js_rem (js_succ (currentSlide (ticks k (create [])))) 0 = NaN).
    { destruct (js_succ _); reflexivity. }
    rewrite E. simpl. repeat split; auto.
Qed.

(** C3, as the specification states it, fails: over zero cards the timed
    advance is not a step that returns and leaves the carousel as it was. *)
Lemma empty_carousel_not_inert :
  advance (create []) <> Normal (create []).
Proof. vm_compute. discriminate. Qed.

(** C3, amended.  Over zero testimonial cards every timed advance throws a
    [TypeError] (there is no [cards[NaN]]); it leaves the two collections
    of the document, cards and dots, empty as they were, and leaves [NaN]
    as the current slide. *)
Theorem empty_carousel_advance_throws (markup_dots : list Element) (k : nat) :
  let s := ticks k (construct [] markup_dots) in
  returns (advance s) = false
  /\ cards (state_of (advance s)) = cards s
  /\ dots (state_of (advance s)) = dots s
  /\ currentSlide (state_of (advance s)) = NaN.
Proof.
  change (construct [] markup_dots) with (create []).
  intros s. destruct (empty_carousel_ticks k) as (Hc & Hd & _). fold s in Hc, Hd.
  destruct (empty_carousel_ticks (S k)) as (Hc' & Hd' & Hn').
  change (ticks (S k) (create [])) with (state_of (advance s)) in Hc', Hd', Hn'.
  rewrite Hc, Hd. repeat split; auto.
  unfold advance, goToSlide.
  cbn [cards dots currentSlide set_cards set_dots set_currentSlide].
  rewrite Hc. simpl.
  assert (E : js_rem (js_succ (currentSlide s)) 0 = NaN).
  { destruct (js_succ _); reflexivity. }
  rewrite E. reflexivity.
Qed.

(** C1.  The pointer enters the slider as soon as the carousel of two cards
    is built and stays there; five seconds later the interval fires all the
    same and the carousel stands at the second card.  Leaving restarts the
    timer: the interval started at construction is cancelled and a new one
    falls due 5000 ms after the pointer leaves. *)
Theorem hover_does_not_pause :
  let hovering := on_mouseenter (create two_cards) in
  let later := elapse 5000 hovering in
  autoPlay later = false
  /\ currentSlide hovering = Int 0
  /\ currentSlide later = Int 1
  /\ map (has_class "active") (cards later) = [false; true]
  /\ map (has_class "active") (dots later) = [false; true]
  /\ timers (on_mouseleave (elapse 3000 hovering)) = [mkTimer 1 8000 5000].
Proof. vm_compute. repeat split. Qed.

End Carousel.

(* ------------------------------------------------------------------ *)
(** *** The destination filter                                         *)
(* ------------------------------------------------------------------ *)

Section Filter.

Import DestinationFilter.

Lemma strict_eq_true a b : strict_eq a b = true <-> a = b.
Proof.
  destruct a as [x |], b as [y |]; simpl; split; intros H;
    try discriminate; try reflexivity.
  - apply String.eqb_eq in H. now subst.
  - injection H as ->. apply String.eqb_refl.
Qed.

Lemma map_dataset_update_nth i f l :
  (forall e, dataset (f e) = dataset e) ->
  map dataset (update_nth i f l) = map dataset l.
Proof.
  intros Hf. revert i. induction l as [| x r IH]; intros [| j]; simpl;
    try reflexivity.
  - now rewrite Hf.
  - now rewrite IH.
Qed.

Lemma map_dataset_remove_class_all tok l :
  map dataset (remove_class_all tok l) = map dataset l.
Proof.
  unfold remove_class_all. rewrite map_map. reflexivity.
Qed.

(** No click changes a [data-*] attribute of a button. *)
Lemma on_click_dataset i s :
  map dataset (filterBtns (on_click i s)) = map dataset (filterBtns s).
Proof.
  unfold on_click. destruct (nth_error (filterBtns s) i); [| reflexivity].
  unfold filter. cbn [filterBtns].
  rewrite map_dataset_update_nth by reflexivity.
  apply map_dataset_remove_class_all.
Qed.

Lemma clicks_dataset l s :
  map dataset (filterBtns (clicks l s)) = map dataset (filterBtns s).
Proof.
  unfold clicks. revert s. induction l as [| i l IH]; intros s; simpl.
  - reflexivity.
  - rewrite IH. apply on_click_dataset.
Qed.

Lemma same_dataset_nth (l1 l2 : list Element) i b :
  map dataset l1 = map dataset l2 ->
  nth_error l2 i = Some b ->
  exists b', nth_error l1 i = Some b' /\ dataset b' = dataset b.
Proof.
  intros Hm Hb.
  pose proof (map_nth_error dataset i l2 Hb) as H2. rewrite <- Hm in H2.
  rewrite nth_error_map in H2.
  destruct (nth_error l1 i) as [b' |]; simpl in H2; [| discriminate].
  exists b'. split; [reflexivity | congruence].
Qed.

(** A card is visible after [filter(category)] exactly when the category
    is the wildcard or the card's own. *)
Lemma filter_card_visible category card :
  let card' := filter_card category card in
  data "category" card' = data "category" card
  /\ (visible card' = true <->
      category = Some "all" \/ data "category" card = category).
Proof.
  unfold filter_card, visible.
  destruct (strict_eq category (Some "all")
            || strict_eq (data "category" card) category) eqn:E; cbn zeta.
  - split; [reflexivity |].
    unfold has_class. cbn [classList set_style with_classList].
    rewrite contains_remove_same. simpl.
    apply orb_true_iff in E. rewrite !strict_eq_true in E. tauto.
  - split; [reflexivity |].
    unfold has_class. cbn [classList with_classList].
    rewrite contains_add_same. simpl.
    apply orb_false_iff in E. destruct E as [E1 E2].
    split; [discriminate |].
    intros [H | H]; apply strict_eq_true in H; congruence.
Qed.

Lemma on_click_invariant i s btn :
  nth_error (filterBtns s) i = Some btn ->
  let s' := on_click i s in
  count_class "active" (filterBtns s') = 1
  /\ Forall (fun card =>
               visible card = true <->
               data "filter" btn = Some "all"
               \/ data "category" card = data "filter" btn)
            (cards s').
Proof.
  intros Hb. unfold on_click. rewrite Hb. cbn zeta. unfold filter.
  cbn [filterBtns cards]. split.
  - apply count_class_marked. apply nth_error_Some. congruence.
  - apply Forall_forall. intros card' Hin. apply in_map_iff in Hin.
    destruct Hin as (card & <- & _).
    destruct (filter_card_visible (data "filter" btn) card) as [Hcat Hvis].
    cbn zeta in Hcat, Hvis. rewrite Hcat. exact Hvis.
Qed.

(** C4.  After any sequence of clicks on filter buttons that ends with a
    click on the button [btn] of the page, exactly one filter button is
    marked [active], and each destination card is visible (not flagged
    [hidden]) if and only if the [data-filter] of [btn] is ['all'] or equals
    the card's [data-category]. *)
Theorem filter_after_clicks (s : t) (before : list nat) (i : nat) (btn : Element) :
  nth_error (filterBtns s) i = Some btn ->
  let s' := clicks (before ++ [i]) s in
  count_class "active" (filterBtns s') = 1
  /\ Forall (fun card =>
               visible card = true <->
               data "filter" btn = Some "all"
               \/ data "category" card = data "filter" btn)
            (cards s').
Proof.
  intros Hb s'. subst s'. unfold clicks. rewrite fold_left_app. simpl.
  fold (clicks before s).
  destruct (same_dataset_nth (filterBtns (clicks before s)) (filterBtns s) i btn
              (clicks_dataset before s) Hb) as (btn' & Hb' & Hdata).
  pose proof (on_click_invariant i (clicks before s) btn' Hb') as H.
  cbn zeta in H. unfold data in *. rewrite Hdata in H. exact H.
Qed.

Lemma filter_after_clicks_witness :
  nth_error (filterBtns filter_page) 1
    = Some (mkElement ["filter-btn"] [("filter", "beach")] [] "Beach")
  /\ count_class "active" (filterBtns (clicks [2; 0; 1] filter_page)) = 1
  /\ map visible (cards (clicks [2; 0; 1] filter_page)) = [true; false; false].
Proof.
  split; [reflexivity |].
  split; [| reflexivity].
  exact (proj1 (filter_after_clicks filter_page [2; 0] 1 _ eq_refl)).
Defined.

End Filter.

(* ------------------------------------------------------------------ *)
(** *** The scroll-progress bar                                        *)
(* ------------------------------------------------------------------ *)

Section Progress.

Import ScrollProgress.

Lemma assoc_get_set {V : Type} k (v : V) l : assoc_get k (assoc_set k v l) = Some v.
Proof.
  induction l as [| [k' v'] r IH]; simpl.
  - now rewrite String.eqb_refl.
  - destruct (String.eqb k k') eqn:E; simpl.
    + now rewrite String.eqb_refl.
    + now rewrite E.
Qed.

Lemma get_set_style prop v e : get_style prop (set_style prop v e) = v.
Proof. unfold get_style, set_style. simpl. now rewrite assoc_get_set. Qed.

Lemma Qeq_bool_false (x : Q) : ~ (x == 0)%Q -> Qeq_bool x 0 = false.
Proof.
  intros H. destruct (Qeq_bool x 0) eqn:E; [| reflexivity].
  apply Qeq_bool_iff in E. contradiction.
Qed.

Lemma Qeq_bool_true (x : Q) : (x == 0)%Q -> Qeq_bool x 0 = true.
Proof. intros H. now apply Qeq_bool_iff. Qed.



End Progress.

(* ------------------------------------------------------------------ *)
(** *** The counter animation                                          *)
(* ------------------------------------------------------------------ *)

Section Counter.

Import CounterAnimation.


Lemma step_of_target z :
  jsreal_div (to_real (Int z)) (jsreal_div duration (Fin 16))
  = Fin (inject_Z z / (2000 / 16)).
Proof. reflexivity. Qed.

Lemma step_scaled z : (inject_Z z / (2000 / 16) * 125 == inject_Z z)%Q.
Proof. field. Qed.

Lemma scaled_lt cur m z :
  (cur * 125 == inject_Z m)%Q ->
  ((cur < inject_Z z)%Q <-> (m < 125 * z)%Z).
Proof.
  intros H. rewrite Zlt_Qlt, inject_Z_mult. change (inject_Z 125) with 125%Q.
  split; intros; lra.
Qed.

Lemma updateCounter_running cnt z st cur req m :
  (st * 125 == inject_Z z)%Q -> (cur * 125 == inject_Z m)%Q ->
  (m + z < 125 * z)%Z ->
  updateCounter (mkAnimation cnt (Int z) (Fin st) (Fin cur) req)
  = mkAnimation
      (with_textContent (floor_to_string (Fin (cur + st)) ++ suffix cnt) cnt)
      (Int z) (Fin st) (Fin (cur + st)) true.
Proof.
  intros Hst Hcur Hlt. unfold updateCounter.
  cbn [current step target counter jsreal_add to_real jsreal_ltb].
  destruct (Qlt_le_dec (cur + st) (inject_Z z)) as [_ | Hge]; [reflexivity |].
  exfalso. apply (scaled_lt (cur + st) (m + z) z) in Hlt.
  - lra.
  - rewrite inject_Z_plus. lra.
Qed.

Lemma updateCounter_done cnt z st cur req m :
  (st * 125 == inject_Z z)%Q -> (cur * 125 == inject_Z m)%Q ->
  (125 * z <= m + z)%Z ->
  updateCounter (mkAnimation cnt (Int z) (Fin st) (Fin cur) req)
  = mkAnimation
      (with_textContent (number_to_string (Int z) ++ suffix cnt) cnt)
      (Int z) (Fin st) (Fin (cur + st)) false.
Proof.
  intros Hst Hcur Hge. unfold updateCounter.
  cbn [current step target counter jsreal_add to_real jsreal_ltb].
  destruct (Qlt_le_dec (cur + st) (inject_Z z)) as [Hlt | _]; [| reflexivity].
  exfalso. apply (scaled_lt (cur + st) (m + z) z) in Hlt.
  - lia.
  - rewrite inject_Z_plus. lra.
Qed.

Lemma frames_S n a : frames (S n) a = animation_frame (frames n a).
Proof. reflexivity. Qed.

Lemma frames_idle n a : frame_requested a = false -> frames n a = a.
Proof.
  intros H. induction n as [| n IH]; [reflexivity |].
  rewrite frames_S, IH. unfold animation_frame. now rewrite H.
Qed.

Lemma frames_add n m a : frames (n + m) a = frames n (frames m a).
Proof. unfold frames. apply Nat.iter_add. Qed.

Lemma suffix_same_dataset c c' : dataset c' = dataset c -> suffix c' = suffix c.
Proof. intros H. unfold suffix, data. now rewrite H. Qed.

(** While the count is below a positive target the animation keeps
    requesting frames: after [k] frames, [k <= 123], [current] is
    [(k + 1) * step]. *)
Lemma frames_running c z k :
  parseInt_value (data "count" c) = Int z -> (0 < z)%Z -> k <= 123 ->
  exists cnt cur,
    frames k (animateCounter c)
    = mkAnimation cnt (Int z) (Fin (inject_Z z / (2000 / 16))) (Fin cur) true
    /\ dataset cnt = dataset c
    /\ (cur * 125 == inject_Z (Z.of_nat (S k) * z))%Q.
Proof.
  intros Hz Hpos. induction k as [| k IH]; intros Hk.
  - unfold animateCounter. rewrite Hz, step_of_target. simpl frames.
    rewrite (updateCounter_running _ z _ 0%Q _ 0%Z).
    + do 2 eexists. split; [reflexivity |]. split; [reflexivity |].
      change (Z.of_nat 1 * z)%Z with (1 * z)%Z. rewrite Z.mul_1_l.
      pose proof (step_scaled z). lra.
    + apply step_scaled.
    + reflexivity.
    + lia.
  - destruct IH as (cnt & cur & E & Hd & Hcur); [lia |].
    rewrite frames_S, E. unfold animation_frame. cbn [frame_requested].
    rewrite (updateCounter_running _ z _ cur _ (Z.of_nat (S k) * z)%Z).
    + do 2 eexists. split; [reflexivity |]. split; [exact Hd |].
      replace (Z.of_nat (S (S k)) * z)%Z with (Z.of_nat (S k) * z + z)%Z by lia.
      rewrite inject_Z_plus. pose proof (step_scaled z). lra.
    + apply step_scaled.
    + exact Hcur.
    + nia.
Qed.

Lemma animation_completes c n :
  124 <= n ->
  let a := frames n (animateCounter c) in
  frame_requested a = false
  /\ textContent (counter a)
     = (number_to_string (parseInt_value (data "count" c)) ++ suffix c)%string.
Proof.
  intros Hn. replace n with ((n - 124) + 124) by lia. rewrite frames_add.
  cbn zeta.
  assert (H : frame_requested (frames 124 (animateCounter c)) = false
              /\ textContent (counter (frames 124 (animateCounter c)))
                 = (number_to_string (parseInt_value (data "count" c)) ++ suffix c)%string).
  { destruct (parseInt_value (data "count" c)) as [z |] eqn:Hz.
    - destruct (Z.ltb_spec 0 z) as [Hpos | Hneg].
      + destruct (frames_running c z 123 Hz Hpos (le_n _))
          as (cnt & cur & E & Hd & Hcur).
        rewrite (frames_S 123), E. unfold animation_frame. cbn [frame_requested].
        rewrite (updateCounter_done _ z _ cur _ (Z.of_nat 124 * z)%Z).
        * cbn. rewrite (suffix_same_dataset c cnt Hd). auto.
        * apply step_scaled.
        * exact Hcur.
        * lia.
      + assert (E : animateCounter c
                    = mkAnimation
                        (with_textContent (number_to_string (Int z) ++ suffix c) c)
                        (Int z) (Fin (inject_Z z / (2000 / 16)))
                        (Fin (0 + inject_Z z / (2000 / 16))) false).
        { unfold animateCounter. rewrite Hz, step_of_target.
          apply (updateCounter_done _ z _ 0%Q _ 0%Z).
          - apply step_scaled.
          - reflexivity.
          - lia. }
        rewrite frames_idle; rewrite E; auto.
    - assert (E : animateCounter c
                  = mkAnimation (with_textContent ("NaN" ++ suffix c) c)
                      NaN NaNr NaNr false).
      { unfold animateCounter. rewrite Hz. reflexivity. }
      rewrite frames_idle; rewrite E; auto. }
  destruct H as [Hidle Htext]. rewrite frames_idle by exact Hidle. auto.
Qed.



End Counter.

(* ------------------------------------------------------------------ *)
(** *** The search overlay                                             *)
(* ------------------------------------------------------------------ *)

Section Search.

Import SearchModal.

Lemma close_closes s m :
  searchModal s = Some m ->
  is_open (state_of (close s)) = false
  /\ searchModal (state_of (close s)) = searchModal s
  /\ searchClose (state_of (close s)) = searchClose s
  /\ searchBtn (state_of (close s)) = searchBtn s.
Proof.
  intros H. unfold close. rewrite H. simpl. unfold is_open. simpl.
  rewrite has_class_remove_same. auto.
Qed.

Lemma open_opens s m :
  searchModal s = Some m ->
  is_open (state_of (open s)) = true
  /\ searchModal (state_of (open s)) = searchModal s
  /\ searchClose (state_of (open s)) = searchClose s
  /\ searchBtn (state_of (open s)) = searchBtn s.
Proof.
  intros H. unfold open. rewrite H. simpl. unfold is_open. simpl.
  rewrite has_class_add_same. auto.
Qed.

(** Where neither the close button nor the overlay itself listens to the
    click as its target, an open overlay stays open. *)
Lemma listeners_keep_open ev s n m :
  searchModal s = Some m -> is_open s = true ->
  is_node (searchClose s) n = false ->
  (n = m -> target ev <> m) ->
  is_open (listeners_at ev s n) = true /\ same_refs s (listeners_at ev s n).
Proof.
  intros Hm Hopen Hclose Htarget. unfold listeners_at.
  destruct (is_node (searchBtn s) n) eqn:Hbtn.
  - destruct (open_opens s m Hm) as (Ho & Rm & Rc & Rb).
    rewrite Rc, Hclose, Rm.
    destruct (is_node (searchModal s) n) eqn:Hn.
    + rewrite Hm in Hn. simpl in Hn. apply Nat.eqb_eq in Hn. subst n.
      destruct (Nat.eqb_spec (target ev) m) as [E | _].
      * now elim (Htarget eq_refl).
      * unfold same_refs. auto.
    + unfold same_refs. auto.
  - rewrite Hclose.
    destruct (is_node (searchModal s) n) eqn:Hn.
    + rewrite Hm in Hn. simpl in Hn. apply Nat.eqb_eq in Hn. subst n.
      destruct (Nat.eqb_spec (target ev) m) as [E | _].
      * now elim (Htarget eq_refl).
      * unfold same_refs. auto.
    + unfold same_refs. auto.
Qed.

Lemma fold_keep_open ev m nodes s :
  searchModal s = Some m -> is_open s = true ->
  (forall n, In n nodes -> is_node (searchClose s) n = false) ->
  target ev <> m ->
  is_open (fold_left (listeners_at ev) nodes s) = true.
Proof.
  intros Hm Hopen Hclose Htarget. revert s Hm Hopen Hclose.
  induction nodes as [| n r IH]; intros s Hm Hopen Hclose; simpl; [exact Hopen |].
  destruct (listeners_keep_open ev s n m Hm Hopen) as (Ho & Rm & Rc & _).
  - apply Hclose. now left.
  - intros _. exact Htarget.
  - apply IH.
    + now rewrite Rm.
    + exact Ho.
    + intros n' Hin. rewrite Rc. apply Hclose. now right.
Qed.

(** Where the trigger button does not listen, a closed overlay stays
    closed. *)
Lemma listeners_keep_closed ev s n m :
  searchModal s = Some m -> is_open s = false ->
  is_node (searchBtn s) n = false ->
  is_open (listeners_at ev s n) = false /\ same_refs s (listeners_at ev s n).
Proof.
  intros Hm Hclosed Hbtn. unfold listeners_at. rewrite Hbtn.
  destruct (is_node (searchClose s) n).
  - destruct (close_closes s m Hm) as (Hc & Rm & Rc & Rb). rewrite Rm.
    destruct (is_node (searchModal s) n); [destruct (Nat.eqb (target ev) n) |].
    + assert (Hm' : searchModal (state_of (close s)) = Some m) by congruence.
      destruct (close_closes _ m Hm') as (Hc' & Rm' & Rc' & Rb').
      unfold same_refs. repeat split; congruence.
    + unfold same_refs. auto.
    + unfold same_refs. auto.
  - destruct (is_node (searchModal s) n); [destruct (Nat.eqb (target ev) n) |].
    + destruct (close_closes s m Hm) as (Hc & Rm & Rc & Rb).
      unfold same_refs. auto.
    + unfold same_refs. auto.
    + unfold same_refs. auto.
Qed.

Lemma fold_keep_closed ev m nodes s :
  searchModal s = Some m -> is_open s = false ->
  (forall n, In n nodes -> is_node (searchBtn s) n = false) ->
  is_open (fold_left (listeners_at ev) nodes s) = false.
Proof.
  revert s. induction nodes as [| n r IH]; intros s Hm Hclosed Hbtn; simpl;
    [exact Hclosed |].
  destruct (listeners_keep_closed ev s n m Hm Hclosed) as (Hc & Rm & _ & Rb).
  - apply Hbtn. now left.
  - apply IH.
    + now rewrite Rm.
    + exact Hc.
    + intros n' Hin. rewrite Rb. apply Hbtn. now right.
Qed.



End Search.

(* ------------------------------------------------------------------ *)
(** *** The gallery lightbox                                           *)
(* ------------------------------------------------------------------ *)

Section Lightbox.

Import GalleryLightbox.

Lemma all_nodes_remove n d : all_nodes (remove n d) = detach n (all_nodes d).
Proof. unfold all_nodes, remove, detach. simpl. now rewrite filter_app. Qed.

Lemma filter_detach (p : node -> bool) n l :
  List.filter p (detach n l) = detach n (List.filter p l).
Proof.
  unfold detach. induction l as [| x r IH]; simpl; [reflexivity |].
  destruct (Nat.eqb (id x) n) eqn:E, (p x) eqn:P; simpl;
    rewrite ?E, ?P; simpl; now rewrite IH.
Qed.

Lemma lightbox_nodes_remove n d :
  lightbox_nodes (remove n d) = detach n (lightbox_nodes d).
Proof.
  unfold lightbox_nodes. fold (all_nodes (remove n d)) (all_nodes d).
  rewrite all_nodes_remove. apply (filter_detach is_lightbox).
Qed.

Lemma attached_remove_same n d : attached n (remove n d) = false.
Proof.
  unfold attached. fold (all_nodes (remove n d)). rewrite all_nodes_remove.
  unfold detach. induction (all_nodes d) as [| x r IH]; simpl; [reflexivity |].
  destruct (Nat.eqb (id x) n) eqn:E; simpl; [exact IH |]. now rewrite E.
Qed.

Lemma attached_remove_other n m d :
  attached n d = false -> attached n (remove m d) = false.
Proof.
  unfold attached. fold (all_nodes (remove m d)) (all_nodes d).
  rewrite all_nodes_remove. unfold detach.
  induction (all_nodes d) as [| x r IH]; simpl; [reflexivity |].
  intros H. apply orb_false_iff in H. destruct H as [Hx Hr].
  destruct (Nat.eqb (id x) m); simpl; [now apply IH |].
  rewrite Hx. now apply IH.
Qed.

Lemma dismiss_detaches o d :
  attached (lightbox o) (dismiss o d) = false
  /\ attached (injected o) (dismiss o d) = false.
Proof.
  unfold dismiss. split.
  - apply attached_remove_other, attached_remove_same.
  - apply attached_remove_same.
Qed.

Lemma only_overlay_remove n m d : only_overlay n d -> only_overlay n (remove m d).
Proof.
  unfold only_overlay. intros H x Hin. rewrite lightbox_nodes_remove in Hin.
  unfold detach in Hin. apply filter_In in Hin. now apply H.
Qed.

Lemma only_overlay_dismiss n o d : only_overlay n d -> only_overlay n (dismiss o d).
Proof. intros H. unfold dismiss. now do 2 apply only_overlay_remove. Qed.

Lemma only_overlay_escape n l d :
  only_overlay n d ->
  only_overlay n
    (fold_left (fun acc o => if String.eqb "Escape" "Escape" then dismiss o acc else acc)
               l d).
Proof.
  revert d. induction l as [| o r IH]; intros d H; simpl; [exact H |].
  apply IH. now apply only_overlay_dismiss.
Qed.

Lemma detach_all n l : (forall x, In x l -> id x = n) -> detach n l = [].
Proof.
  unfold detach. induction l as [| x r IH]; intros H; [reflexivity |].
  simpl. rewrite (H x (or_introl eq_refl)), Nat.eqb_refl. simpl.
  apply IH. intros y Hy. apply H. now right.
Qed.

Lemma dismiss_last_overlay o d :
  only_overlay (lightbox o) d -> lightbox_nodes (dismiss o d) = [].
Proof.
  intros H. unfold dismiss. rewrite !lightbox_nodes_remove.
  rewrite (detach_all _ _ H). reflexivity.
Qed.

Lemma opened_only_overlay img d :
  lightbox_nodes d = [] ->
  only_overlay (lightbox (new_overlay d)) (state_of (openLightbox (Some img) d))
  /\ List.length (lightbox_nodes (state_of (openLightbox (Some img) d))) = 1.
Proof.
  unfold only_overlay, lightbox_nodes, all_nodes. intros H. simpl.
  rewrite filter_app in H. apply app_eq_nil in H. destruct H as [Hh Hb].
  rewrite <- !app_assoc, !filter_app, Hh, Hb. simpl. split; [| reflexivity].
  intros x [<- | []]. reflexivity.
Qed.



End Lightbox.

(* ------------------------------------------------------------------ *)
(** *** The like button                                                *)
(* ------------------------------------------------------------------ *)

Section Like.

Import LikeButtonHandler.

(** C10.  A button without [liked] whose icon carries [far] and has no
    inline color: one click returns with [liked] on the button and, on the
    icon, [fas] in place of [far] and the color [#e94560]; a second click
    returns with [liked] gone, [far] in place of [fas] and the color empty
    again.  The button's class list is then the original one, and so is
    the icon's for every token but [fas], which is absent. *)
Theorem like_toggle_involution (b i : Element) :
  has_class "liked" b = false ->
  has_class "far" i = true ->
  get_style "color" i = Lit "" ->
  exists b1 i1 b2 i2,
    on_click (mkLike b (Some i)) = Normal (mkLike b1 (Some i1))
    /\ on_click (mkLike b1 (Some i1)) = Normal (mkLike b2 (Some i2))
    /\ has_class "liked" b1 = true
    /\ has_class "fas" i1 = true /\ has_class "far" i1 = false
    /\ get_style "color" i1 = Lit "#e94560"
    /\ has_class "liked" b2 = false
    /\ has_class "far" i2 = true /\ has_class "fas" i2 = false
    /\ get_style "color" i2 = Lit ""
    /\ classList b2 = classList b
    /\ forall tok, tok <> "fas" -> has_class tok i2 = has_class tok i.
Proof.
  intros Hliked Hfar Hcolor. unfold has_class in Hliked, Hfar.
  assert (Hne : "fas" <> "far") by discriminate.
  assert (Hne' : "far" <> "fas") by discriminate.
  assert (T1 : ClassList.toggle "liked" (classList b) = classList b ++ ["liked"]).
  { unfold ClassList.toggle. now rewrite Hliked. }
  assert (C1 : ClassList.contains "liked" (classList b ++ ["liked"]) = true).
  { apply contains_In, in_app_iff. right. now left. }
  assert (T2 : ClassList.toggle "liked" (classList b ++ ["liked"]) = classList b).
  { unfold ClassList.toggle. rewrite C1. now apply remove_app_absent. }
  do 4 eexists. split; [| split].
  - unfold on_click. cbn [btn icon]. unfold has_class.
    cbn [classList with_classList]. rewrite T1, C1. reflexivity.
  - unfold on_click. cbn [btn icon]. unfold has_class.
    cbn [classList with_classList]. rewrite T1, T2, Hliked. reflexivity.
  - unfold has_class. cbn [classList with_classList set_style].
    rewrite T1, T2, !get_set_style.
    repeat split; try reflexivity; try assumption.
    + apply contains_add_same.
    + rewrite contains_add_other by exact Hne. apply contains_remove_same.
    + apply contains_add_same.
    + rewrite contains_add_other by exact Hne'. apply contains_remove_same.
    + intros tok Htok. destruct (String.eqb_spec tok "far") as [-> | Hnf].
      * rewrite contains_add_same. now rewrite Hfar.
      * rewrite contains_add_other by congruence.
        rewrite contains_remove_other by congruence.
        rewrite contains_add_other by congruence.
        now rewrite contains_remove_other by congruence.
Qed.

Lemma like_toggle_involution_witness :
  has_class "liked" heart_button = false
  /\ has_class "far" heart_icon = true
  /\ get_style "color" heart_icon = Lit ""
  /\ exists b1 i1 b2 i2,
       on_click (mkLike heart_button (Some heart_icon)) = Normal (mkLike b1 (Some i1))
       /\ on_click (mkLike b1 (Some i1)) = Normal (mkLike b2 (Some i2))
       /\ classList b2 = classList heart_button.
Proof.
  split; [reflexivity |]. split; [reflexivity |]. split; [reflexivity |].
  destruct (like_toggle_involution heart_button heart_icon eq_refl eq_refl eq_refl)
    as (b1 & i1 & b2 & i2 & E1 & E2 & _ & _ & _ & _ & _ & _ & _ & _ & Hb & _).
  exists b1, i1, b2, i2. auto.
Defined.

End Like.

(* ------------------------------------------------------------------ *)
(** *** Which controllers write what                                   *)
(* ------------------------------------------------------------------ *)

Section Sharing.

Import Footprint.

Lemma controller_eqb_eq a b : controller_eqb a b = true <-> a = b.
Proof.
  unfold controller_eqb. rewrite Nat.eqb_eq. split; [| now intros ->].
  destruct a, b; simpl; intros H; try reflexivity; discriminate H.
Qed.

Lemma all_controllers c : In c controllers.
Proof. destruct c; simpl; tauto. Qed.




End Sharing.

(* ------------------------------------------------------------------ *)
(** *** The carousel over time                                         *)
(* ------------------------------------------------------------------ *)

Section CarouselTimeline.

Import TestimonialsSlider CarouselEvents.

(** [goToSlide] writes the cards, the dots and the current slide, and
    nothing else. *)
Lemma goToSlide_at_time table now i s :
  goToSlide i (at_time table now s)
  = match goToSlide i s with
    | Normal s' => Normal (at_time table now s')
    | Throw msg s' => Throw msg (at_time table now s')
    end.
Proof.
  unfold goToSlide. cbn [cards dots set_cards set_dots at_time].
  destruct (js_index (remove_class_all "active" (cards s)) i); [| reflexivity].
  destruct (js_index (remove_class_all "active" (dots s)) i); reflexivity.
Qed.

Lemma fire_at_time table now s :
  fire (at_time table now s) = at_time table now (fire s).
Proof.
  unfold fire, advance. cbn [currentSlide cards set_currentSlide at_time].
  change (set_currentSlide ?v (at_time table now s))
    with (at_time table now (set_currentSlide v s)).
  rewrite goToSlide_at_time.
  destruct (goToSlide _ _); reflexivity.
Qed.

Lemma at_time_same s : at_time (timers s) (clock s) s = s.
Proof. destruct s. reflexivity. Qed.

Lemma fire_frame s :
  timers (fire s) = timers s /\ clock (fire s) = clock s
  /\ interval (fire s) = interval s /\ autoPlay (fire s) = autoPlay s
  /\ intervalTime (fire s) = intervalTime s /\ next_handle (fire s) = next_handle s.
Proof.
  unfold fire, advance, goToSlide.
  cbn [cards dots currentSlide set_cards set_dots set_currentSlide].
  destruct (js_index _ _); [| cbn; auto 10].
  destruct (js_index _ _); cbn; auto 10.
Qed.

(** One millisecond with a single interval in the table. *)
Lemma millisecond_one h d p s :
  timers s = [mkTimer h d p] ->
  millisecond s
  = if (d =? clock s + 1)%Z
    then at_time [mkTimer h (d + p) p] (clock s + 1) (fire s)
    else at_time [mkTimer h d p] (clock s + 1) s.
Proof.
  intros Ht. unfold millisecond, reschedule. rewrite Ht. cbn [filter map due].
  destruct (d =? clock s + 1)%Z; cbn [fold_left handle period].
  - change (mkSlider (cards s) (dots s) (currentSlide s) (autoPlay s)
              (intervalTime s) (interval s) [mkTimer h (d + p) p]
              (next_handle s) (clock s + 1))
      with (at_time [mkTimer h (d + p) p] (clock s + 1) s).
    apply fire_at_time.
  - reflexivity.
Qed.

Lemma elapse_S n s : elapse (S n) s = millisecond (elapse n s).
Proof. reflexivity. Qed.

Lemma elapse_add n m s : elapse (n + m) s = elapse n (elapse m s).
Proof. unfold elapse. apply Nat.iter_add. Qed.

(** While the interval is not due, time passing moves the clock only. *)
Lemma elapse_idle h d p j s :
  timers s = [mkTimer h d p] ->
  (clock s + Z.of_nat j < d)%Z ->
  elapse j s = at_time [mkTimer h d p] (clock s + Z.of_nat j) s.
Proof.
  intros Ht. induction j as [| j IH]; intros Hlt.
  - simpl. rewrite Z.add_0_r, <- Ht. symmetry. apply at_time_same.
  - rewrite elapse_S, IH by lia.
    rewrite (millisecond_one h d p) by reflexivity. cbn [clock at_time].
    destruct (Z.eqb_spec d (clock s + Z.of_nat j + 1)) as [E | _]; [lia |].
    unfold at_time. cbn. f_equal. lia.
Qed.

(** A full period: the interval fires once, at the end. *)
Lemma elapse_period h p s :
  timers s = [mkTimer h (clock s + Z.of_nat (S p)) (Z.of_nat (S p))] ->
  elapse (S p) s
  = at_time [mkTimer h (clock s + Z.of_nat (S p) + Z.of_nat (S p)) (Z.of_nat (S p))]
            (clock s + Z.of_nat (S p)) (fire s).
Proof.
  intros Ht. rewrite elapse_S.
  rewrite (elapse_idle h _ _ p s Ht) by lia.
  rewrite (millisecond_one h (clock s + Z.of_nat (S p)) (Z.of_nat (S p)))
    by reflexivity.
  cbn [clock at_time].
  destruct (Z.eqb_spec (clock s + Z.of_nat (S p)) (clock s + Z.of_nat p + 1))
    as [_ | E]; [| lia].
  rewrite fire_at_time. unfold at_time. cbn. f_equal. lia.
Qed.

Lemma construct_timeline markup_cards markup_dots :
  let s := construct markup_cards markup_dots in
  timers s = [mkTimer 0 5000 5000] /\ clock s = 0%Z /\ interval s = Some 0.
Proof. cbn. auto. Qed.

Lemma ticks_S k s : ticks (S k) s = fire (ticks k s).
Proof. reflexivity. Qed.

Lemma elapse_periods markup_cards markup_dots k :
  elapse (5000 * k) (construct markup_cards markup_dots)
  = at_time [mkTimer 0 (5000 * Z.of_nat (S k)) 5000] (5000 * Z.of_nat k)
            (ticks k (construct markup_cards markup_dots)).
Proof.
  induction k as [| k IH].
  - simpl. reflexivity.
  - replace (5000 * S k) with (5000 + 5000 * k) by lia.
    rewrite elapse_add, IH.
    change 5000 with (S 4999) at 1.
    rewrite (elapse_period 0 4999).
    + cbn [clock at_time]. rewrite fire_at_time, <- ticks_S.
      unfold at_time. cbn [cards dots currentSlide autoPlay intervalTime
                           interval next_handle].
      f_equal; [f_equal; f_equal |]; lia.
    + cbn [clock timers at_time]. f_equal. f_equal; lia.
Qed.

(** X1.  Left alone, the carousel built over N >= 1 cards stands at slide
    [k mod N] when [k] periods of 5000 ms have passed, with exactly one
    card and one dot marked. *)
Theorem carousel_after_periods (markup_cards markup_dots : list Element) (k : nat) :
  1 <= List.length markup_cards ->
  let n := List.length markup_cards in
  let s := elapse (5000 * k) (construct markup_cards markup_dots) in
  currentSlide s = Int (Z.of_nat (k mod n))
  /\ (1 <= k ->
      count_class "active" (cards s) = 1 /\ count_class "active" (dots s) = 1).
Proof.
  intros Hn n s. subst s. rewrite elapse_periods. cbn [currentSlide cards dots at_time].
  pose proof (construct_standing markup_cards markup_dots Hn) as H0.
  split.
  - destruct (ticks_standing _ _ k H0) as (_ & _ & Hcur & _).
    rewrite Hcur. f_equal. fold n. rewrite Nat2Z.inj_mod. reflexivity.
  - intros Hk. destruct k as [| k]; [lia |].
    pose proof (ticks_standing _ _ k H0) as Hk'.
    destruct (fire_standing _ _ _ Hk') as (_ & _ & Hc & Hd).
    rewrite ticks_S. auto.
Qed.

Lemma carousel_after_periods_witness :
  1 <= List.length three_cards
  /\ currentSlide (elapse (5000 * 4) (construct three_cards [])) = Int 1.
Proof.
  assert (H : 1 <= List.length three_cards) by (simpl; lia).
  split; [exact H |].
  exact (proj1 (carousel_after_periods three_cards [] 4 H)).
Defined.

Lemma goToSlide_frame i s :
  let s' := state_of (goToSlide i s) in
  timers s' = timers s /\ clock s' = clock s
  /\ interval s' = interval s /\ intervalTime s' = intervalTime s.
Proof.
  unfold goToSlide. cbn [cards dots set_cards set_dots].
  destruct (js_index _ _); [| cbn; auto].
  destruct (js_index _ _); cbn; auto.
Qed.

Lemma startAutoPlay_restarts h d s :
  timers s = [mkTimer h d 5000] -> interval s = Some h ->
  intervalTime s = 5000%Z -> autoPlay s = true ->
  let s' := startAutoPlay s in
  timers s' = [mkTimer (next_handle s) (clock s + 5000) 5000]
  /\ interval s' = Some (next_handle s) /\ intervalTime s' = 5000%Z
  /\ clock s' = clock s /\ shown s' = shown s.
Proof.
  intros Ht Hi Hp Ha. unfold startAutoPlay. rewrite Ha, Hi. cbn [negb].
  unfold setInterval, clearInterval. cbn. rewrite Ht, Hp. cbn.
  rewrite Nat.eqb_refl. cbn. auto.
Qed.

Lemma elapse_one_interval h d ms s :
  timers s = [mkTimer h d 5000] ->
  exists d', timers (elapse ms s) = [mkTimer h d' 5000]
    /\ interval (elapse ms s) = interval s
    /\ intervalTime (elapse ms s) = intervalTime s.
Proof.
  intros Ht. induction ms as [| ms (d' & Ht' & Hi' & Hp')].
  - exists d. auto.
  - rewrite elapse_S, (millisecond_one h d' 5000 _ Ht').
    destruct (fire_frame (elapse ms s)) as (_ & _ & Fi & _ & Fp & _).
    destruct (d' =? clock (elapse ms s) + 1)%Z; eexists; cbn; split;
      try reflexivity; split; congruence.
Qed.

Lemma step_keeps_interval e s :
  one_interval s /\ intervalTime s = 5000%Z ->
  one_interval (step s e) /\ intervalTime (step s e) = 5000%Z.
Proof.
  intros [(h & d & Ht & Hi) Hp]. destruct e as [| | ms | i]; cbn [step].
  - split; [exists h, d |]; auto.
  - unfold on_mouseleave.
    destruct (startAutoPlay_restarts h d (set_autoPlay true s) Ht Hi Hp eq_refl)
      as (Ht' & Hi' & Hp' & _).
    split; [| exact Hp']. eexists _, _. eauto.
  - destruct (elapse_one_interval h d ms s Ht) as (d' & Ht' & Hi' & Hp').
    split; [exists h, d' | congruence]. split; congruence.
  - destruct (i <? List.length (dots s)); [| split; [exists h, d |]; auto].
    unfold on_dot_click.
    destruct (goToSlide_frame (Int (Z.of_nat i)) s) as (Ft & _ & Fi & Fp).
    cbn zeta in Ft, Fi, Fp.
    split; [exists h, d | congruence]. split; congruence.
Qed.

(** X2.  Whatever the pointer, the clock and the dots do to a carousel, the
    page holds exactly one interval for it, the one [this.interval] names:
    every restart cancels the interval it replaces. *)
Theorem carousel_keeps_one_interval
  (markup_cards markup_dots : list Element) (events : list event) :
  one_interval (run events (construct markup_cards markup_dots)).
Proof.
  assert (H : forall s, one_interval s /\ intervalTime s = 5000%Z ->
                one_interval (run events s)).
  { unfold run. induction events as [| e r IH]; intros s Hs; cbn [fold_left].
    - apply Hs.
    - apply IH. now apply step_keeps_interval. }
  apply H. split; [| reflexivity]. exists 0, 5000%Z. cbn. auto.
Qed.

Lemma goToSlide_set_autoPlay b i s :
  goToSlide i (set_autoPlay b s)
  = match goToSlide i s with
    | Normal s' => Normal (set_autoPlay b s')
    | Throw msg s' => Throw msg (set_autoPlay b s')
    end.
Proof.
  unfold goToSlide. cbn [cards dots set_cards set_dots set_autoPlay].
  destruct (js_index (remove_class_all "active" (cards s)) i); [| reflexivity].
  destruct (js_index (remove_class_all "active" (dots s)) i); reflexivity.
Qed.

Lemma fire_set_autoPlay b s : fire (set_autoPlay b s) = set_autoPlay b (fire s).
Proof.
  unfold fire, advance. cbn [currentSlide cards set_currentSlide set_autoPlay].
  change (set_currentSlide ?v (set_autoPlay b s))
    with (set_autoPlay b (set_currentSlide v s)).
  rewrite goToSlide_set_autoPlay. destruct (goToSlide _ _); reflexivity.
Qed.

Lemma fires_set_autoPlay {A : Type} b (l : list A) s :
  fold_left (fun acc _ => fire acc) l (set_autoPlay b s)
  = set_autoPlay b (fold_left (fun acc _ => fire acc) l s).
Proof.
  revert s. induction l as [| x r IH]; intros s; cbn [fold_left]; [reflexivity |].
  rewrite fire_set_autoPlay. apply IH.
Qed.

Lemma millisecond_set_autoPlay b s :
  millisecond (set_autoPlay b s) = set_autoPlay b (millisecond s).
Proof.
  unfold millisecond. cbn [timers clock cards dots currentSlide autoPlay
                            intervalTime interval next_handle set_autoPlay].
  rewrite <- fires_set_autoPlay. reflexivity.
Qed.

(** X3.  The pointer entering the slider changes the flag [autoPlay] and
    nothing that follows from it: whatever time passes afterwards, cards,
    dots, current slide and interval are what they would be had the pointer
    stayed away. *)
Theorem hover_only_sets_flag (ms : nat) (s : t) :
  elapse ms (on_mouseenter s) = on_mouseenter (elapse ms s).
Proof.
  unfold on_mouseenter. induction ms as [| ms IH]; [reflexivity |].
  rewrite !elapse_S, IH. apply millisecond_set_autoPlay.
Qed.

Lemma visit_keeps_shown v s :
  fst v + snd v < 5000 -> just_restarted s ->
  just_restarted (run (visit v) s) /\ shown (run (visit v) s) = shown s.
Proof.
  intros Hv (h & Ht & Hi & Hp). destruct v as [a b]. cbn [fst snd] in Hv.
  unfold run, visit. cbn [fold_left step fst snd].
  rewrite (elapse_idle h _ _ a s Ht) by lia.
  unfold on_mouseenter.
  set (s1 := set_autoPlay false (at_time _ _ s)).
  assert (Ht1 : timers s1 = [mkTimer h (clock s + 5000) 5000]) by reflexivity.
  rewrite (elapse_idle h _ _ b s1 Ht1) by (cbn; lia).
  unfold on_mouseleave.
  set (s2 := set_autoPlay true (at_time _ _ s1)).
  destruct (startAutoPlay_restarts h (clock s + 5000) s2 eq_refl Hi Hp eq_refl)
    as (Ht' & Hi' & Hp' & Hc' & Hs').
  split.
  - exists (next_handle s2). rewrite Hc'. auto.
  - rewrite Hs'. reflexivity.
Qed.

(** X4.  Every [mouseleave] puts the next advance a full 5000 ms away.  So
    a pointer that keeps crossing the slider, leaving each time less than
    5000 ms after it last left, stops the carousel for good: cards, dots
    and current slide stay as they were built. *)
Theorem restarts_starve_the_carousel
  (markup_cards markup_dots : list Element) (visits : list (nat * nat)) :
  Forall (fun v => fst v + snd v < 5000) visits ->
  shown (run (flat_map visit visits) (construct markup_cards markup_dots))
  = shown (construct markup_cards markup_dots).
Proof.
  intros Hall.
  assert (H : forall s, just_restarted s ->
                shown (run (flat_map visit visits) s) = shown s).
  { induction Hall as [| v r Hv _ IH]; intros s Hs; [reflexivity |].
    cbn [flat_map]. unfold run. rewrite fold_left_app. fold (run (visit v) s).
    destruct (visit_keeps_shown v s Hv Hs) as [Hr Hsh].
    fold (run (flat_map visit r) (run (visit v) s)).
    rewrite (IH _ Hr). exact Hsh. }
  apply H. exists 0. cbn. auto.
Qed.

Lemma restarts_starve_the_carousel_witness :
  Forall (fun v => fst v + snd v < 5000) [(3, 1); (4, 0)]
  /\ shown (run (flat_map visit [(3, 1); (4, 0)]) (construct three_cards []))
     = shown (construct three_cards []).
Proof.
  assert (H : Forall (fun v => fst v + snd v < 5000) [(3, 1); (4, 0)]).
  { constructor; [cbn [fst snd]; lia |].
    constructor; [cbn [fst snd]; lia | constructor]. }
  split; [exact H |].
  exact (restarts_starve_the_carousel three_cards [] _ H).
Defined.

Lemma nth_error_update_nth {A : Type} (f : A -> A) l i j :
  nth_error (update_nth i f l) j
  = if Nat.eqb j i then option_map f (nth_error l j) else nth_error l j.
Proof.
  revert i j. induction l as [| x r IH]; intros i j.
  - destruct i, j; cbn; try reflexivity; now destruct (Nat.eqb _ _).
  - destruct i as [| i], j as [| j]; cbn; try reflexivity. apply IH.
Qed.

(** After clearing a token everywhere and adding it at position [i], the
    elements that carry it are the one at [i]. *)
Lemma marked_exactly tok l i j e :
  nth_error (update_nth i (with_classList (ClassList.add tok))
               (remove_class_all tok l)) j = Some e ->
  has_class tok e = Nat.eqb j i.
Proof.
  rewrite nth_error_update_nth. unfold remove_class_all.
  rewrite nth_error_map. destruct (Nat.eqb j i); destruct (nth_error l j);
    cbn; intros H; inversion H.
  - apply has_class_add_same.
  - apply has_class_remove_same.
Qed.

(** X5.  A click on the dot [i] of a carousel of [n] cards returns, makes
    [i] the current slide and leaves the mark [active] on the card [i] and
    the dot [i] and on no other; the next timed advance then shows slide
    [(i + 1) mod n]. *)
Theorem dot_click_jumps (s : t) (n i : nat) :
  List.length (cards s) = n -> List.length (dots s) = n -> i < n ->
  exists s',
    on_dot_click i s = Normal s'
    /\ currentSlide s' = Int (Z.of_nat i)
    /\ (forall j e, nth_error (cards s') j = Some e ->
                    has_class "active" e = Nat.eqb j i)
    /\ (forall j e, nth_error (dots s') j = Some e ->
                    has_class "active" e = Nat.eqb j i)
    /\ returns (advance s') = true
    /\ currentSlide (fire s') = Int (Z.of_nat ((i + 1) mod n)).
Proof.
  intros Hc Hd Hi. unfold on_dot_click, goToSlide.
  cbn [cards dots set_cards set_dots].
  destruct (js_index_in_range (remove_class_all "active" (cards s)) (Z.of_nat i))
    as [x Hx].
  { rewrite length_remove_class_all. lia. }
  destruct (js_index_in_range (remove_class_all "active" (dots s)) (Z.of_nat i))
    as [y Hy].
  { rewrite length_remove_class_all. lia. }
  rewrite Hx, Hy. eexists. split; [reflexivity |].
  cbn [currentSlide cards dots set_currentSlide set_cards set_dots add_class_at].
  rewrite Nat2Z.id.
  split; [reflexivity |]. split; [apply marked_exactly |].
  split; [apply marked_exactly |].
  match goal with |- returns (advance ?s1) = true /\ _ =>
    assert (Hst : standing n (Z.of_nat i) s1)
  end.
  { unfold standing. cbn. rewrite !length_update_nth, !length_remove_class_all.
    repeat split; try assumption; lia. }
  destruct (fire_standing _ _ _ Hst) as (Hret & (_ & _ & Hcur & _) & _).
  split; [exact Hret |]. rewrite Hcur. f_equal.
  rewrite Nat2Z.inj_mod. f_equal. lia.
Qed.

Lemma dot_click_jumps_witness :
  List.length (cards (create three_cards)) = 3
  /\ List.length (dots (create three_cards)) = 3
  /\ 2 < 3
  /\ exists s', on_dot_click 2 (create three_cards) = Normal s'
        /\ currentSlide (fire s') = Int 0.
Proof.
  split; [reflexivity |]. split; [reflexivity |]. split; [lia |].
  destruct (dot_click_jumps (create three_cards) 3 2 eq_refl eq_refl)
    as (s' & E & _ & _ & _ & _ & Hnext); [lia |].
  exists s'. split; [exact E | exact Hnext].
Defined.

End CarouselTimeline.

(* ------------------------------------------------------------------ *)
(** *** Filtering twice                                                *)
(* ------------------------------------------------------------------ *)

Section FilterAgain.

Import DestinationFilter.

Lemma remove_remove tok l :
  ClassList.remove tok (ClassList.remove tok l) = ClassList.remove tok l.
Proof.
  apply remove_absent, contains_remove_same.
Qed.

Lemma add_add tok l : ClassList.add tok (ClassList.add tok l) = ClassList.add tok l.
Proof.
  unfold ClassList.add at 1. now rewrite contains_add_same.
Qed.

Lemma remove_add_remove tok l :
  ClassList.remove tok (ClassList.add tok (ClassList.remove tok l))
  = ClassList.remove tok l.
Proof.
  unfold ClassList.add. rewrite contains_remove_same.
  apply remove_app_absent, contains_remove_same.
Qed.

Lemma assoc_set_set {V : Type} k (v : V) l :
  assoc_set k v (assoc_set k v l) = assoc_set k v l.
Proof.
  induction l as [| [k' v'] r IH]; cbn.
  - now rewrite String.eqb_refl.
  - destruct (String.eqb k k') eqn:E; cbn.
    + now rewrite String.eqb_refl.
    + now rewrite E, IH.
Qed.

Lemma filter_card_twice category card :
  filter_card category (filter_card category card) = filter_card category card.
Proof.
  unfold filter_card at 2.
  destruct (strict_eq category (Some "all")
            || strict_eq (data "category" card) category) eqn:E.
  - unfold filter_card, data in *. cbn [dataset set_style with_classList].
    rewrite E. unfold set_style, with_classList. cbn [classList dataset style textContent].
    now rewrite remove_remove, assoc_set_set.
  - unfold filter_card, data in *. cbn [dataset with_classList].
    rewrite E. unfold with_classList. cbn [classList dataset style textContent].
    now rewrite add_add.
Qed.

Lemma clear_twice tok l :
  remove_class_all tok (remove_class_all tok l) = remove_class_all tok l.
Proof.
  unfold remove_class_all. rewrite map_map. apply map_ext. intros e.
  unfold with_classList. cbn [classList dataset style textContent].
  now rewrite remove_remove.
Qed.

Lemma mark_twice tok i l :
  update_nth i (with_classList (ClassList.add tok))
    (remove_class_all tok
       (update_nth i (with_classList (ClassList.add tok)) (remove_class_all tok l)))
  = update_nth i (with_classList (ClassList.add tok)) (remove_class_all tok l).
Proof.
  revert i. induction l as [| x r IH]; intros i; [now destruct i |].
  destruct i as [| i]; cbn [update_nth remove_class_all map].
  - fold (remove_class_all tok r). fold (remove_class_all tok (remove_class_all tok r)).
    rewrite clear_twice. f_equal.
    unfold with_classList. cbn [classList dataset style textContent].
    now rewrite remove_add_remove.
  - fold (remove_class_all tok r).
    fold (remove_class_all tok
            (update_nth i (with_classList (ClassList.add tok)) (remove_class_all tok r))).
    rewrite IH. f_equal.
    unfold with_classList. cbn [classList dataset style textContent].
    now rewrite remove_remove.
Qed.

(** X6.  Clicking the same filter button a second time changes nothing:
    buttons and cards, classes and inline styles, are exactly what the first
    click left. *)
Theorem filter_click_idempotent (i : nat) (s : t) :
  on_click i (on_click i s) = on_click i s.
Proof.
  unfold on_click at 2. destruct (nth_error (filterBtns s) i) as [btn |] eqn:Hb.
  - destruct (same_dataset_nth (filterBtns (on_click i s)) (filterBtns s) i btn
                (on_click_dataset i s) Hb) as (btn' & Hb' & Hd).
    unfold on_click at 1. unfold on_click in Hb'. rewrite Hb in Hb'.
    cbn [filter filterBtns cards] in *. rewrite Hb'.
    unfold data. rewrite Hd. unfold filter. cbn [filterBtns cards].
    rewrite mark_twice, map_map.
    unfold on_click. rewrite Hb. unfold filter, data. cbn [filterBtns cards].
    f_equal. apply map_ext. intros card. apply filter_card_twice.
  - unfold on_click. now rewrite Hb.
Qed.

End FilterAgain.

(* ------------------------------------------------------------------ *)
(** *** parseInt on rendered numbers                                   *)
(* ------------------------------------------------------------------ *)

Section ParseDecimal.

Import NumberText.

Lemma of_uint_acc_value d acc :
  Z.pos (Pos.of_uint_acc d acc) = uint_value d (Z.pos acc).
Proof.
  revert acc. induction d; intros acc; cbn [Pos.of_uint_acc uint_value];
    try reflexivity; rewrite IHd; f_equal; lia.
Qed.

Lemma of_uint_value d : Z.of_uint d = uint_value d 0.
Proof.
  unfold Z.of_uint. induction d; cbn [Pos.of_uint uint_value Z.of_N];
    try reflexivity; try exact IHd; apply of_uint_acc_value.
Qed.

Lemma parse_digits_stop rest acc :
  ends_number rest = true -> parse_digits 10 rest (Some acc) = Some acc.
Proof.
  destruct rest as [| c r]; [reflexivity |]. cbn [ends_number parse_digits].
  destruct (digit_value c) as [d |]; [| reflexivity].
  intros H. apply andb_true_iff in H. destruct H as [H _].
  apply andb_true_iff in H. destruct H as [H _].
  destruct (Z.ltb_spec d 10); [| reflexivity]. apply Z.leb_le in H. lia.
Qed.

Lemma parse_digits_uint d rest acc :
  ends_number rest = true ->
  parse_digits 10 (NilEmpty.string_of_uint d ++ rest)%string (Some acc)
  = Some (uint_value d acc).
Proof.
  intros Hrest. revert acc.
  induction d; intros acc; cbn [NilEmpty.string_of_uint append uint_value];
    try (now apply parse_digits_stop);
    cbn [parse_digits]; apply IHd.
Qed.

Lemma parse_digits_first d rest :
  d <> Decimal.Nil -> ends_number rest = true ->
  parse_digits 10 (NilEmpty.string_of_uint d ++ rest)%string None
  = Some (uint_value d 0).
Proof.
  intros Hd Hrest.
  destruct d; [now elim Hd | ..];
    cbn [NilEmpty.string_of_uint append parse_digits uint_value];
    apply parse_digits_uint; exact Hrest.
Qed.

Lemma ends_number_not_x c r :
  ends_number (String c r) = true -> Ascii.eqb c "x" = false /\ Ascii.eqb c "X" = false.
Proof.
  cbn [ends_number]. destruct (Ascii.eqb_spec c "x") as [-> | _];
    [cbn; discriminate |].
  destruct (Ascii.eqb_spec c "X") as [-> | _]; [cbn; discriminate |]. auto.
Qed.

Ltac decide_whitespace :=
  repeat match goal with
  | |- context [is_whitespace ?c] =>
      let b := eval vm_compute in (is_whitespace c) in
      change (is_whitespace c) with b
  end.

Ltac parse_known P :=
  unfold parseInt; cbn [NilEmpty.string_of_uint append trim_start] in *;
  decide_whitespace; cbn iota beta zeta; rewrite P.

Lemma parseInt_unsigned d rest :
  d <> Decimal.Nil -> ends_number rest = true ->
  parseInt (NilEmpty.string_of_uint d ++ rest)%string = Int (uint_value d 0).
Proof.
  intros Hd Hrest.
  pose proof (parse_digits_first d rest Hd Hrest) as P.
  destruct d as [| l | l | l | l | l | l | l | l | l | l]; [now elim Hd | ..].
  2-10: parse_known P; now rewrite Z.mul_1_l.
  destruct l as [| l | l | l | l | l | l | l | l | l | l].
  2-11: parse_known P; now rewrite Z.mul_1_l.
  destruct rest as [| c r].
  - reflexivity.
  - destruct (ends_number_not_x c r Hrest) as [Hx HX].
    destruct c as [[] [] [] [] [] [] [] []];
      try discriminate Hx; try discriminate HX;
      parse_known P; reflexivity.
Qed.

Lemma parseInt_negative d rest :
  d <> Decimal.Nil -> ends_number rest = true ->
  parseInt (String "-" (NilEmpty.string_of_uint d ++ rest))%string
  = Int (- uint_value d 0).
Proof.
  intros Hd Hrest.
  pose proof (parse_digits_first d rest Hd Hrest) as P.
  destruct d as [| l | l | l | l | l | l | l | l | l | l]; [now elim Hd | ..].
  2-10: parse_known P; f_equal; lia.
  destruct l as [| l | l | l | l | l | l | l | l | l | l].
  2-11: parse_known P; f_equal; lia.
  destruct rest as [| c r].
  - reflexivity.
  - destruct (ends_number_not_x c r Hrest) as [Hx HX].
    destruct c as [[] [] [] [] [] [] [] []];
      try discriminate Hx; try discriminate HX;
      parse_known P; reflexivity.
Qed.

Lemma string_of_uint_nonnil d :
  d <> Decimal.Nil -> NilZero.string_of_uint d = NilEmpty.string_of_uint d.
Proof. destruct d; [intros H; now elim H | reflexivity ..]. Qed.

Lemma parseInt_decimal z rest :
  ends_number rest = true -> parseInt (decimal z ++ rest)%string = Int z.
Proof.
  intros Hrest. unfold decimal. destruct z as [| p | p]; cbn [Z.to_int].
  - change (NilZero.string_of_int (Decimal.Pos Decimal.zero))
      with (NilEmpty.string_of_uint (Decimal.D0 Decimal.Nil)).
    rewrite parseInt_unsigned; [reflexivity | discriminate | exact Hrest].
  - cbn [NilZero.string_of_int].
    rewrite string_of_uint_nonnil by apply DecimalPos.Unsigned.to_uint_nonnil.
    rewrite parseInt_unsigned;
      [| apply DecimalPos.Unsigned.to_uint_nonnil | exact Hrest].
    f_equal. rewrite <- of_uint_value. unfold Z.of_uint.
    now rewrite DecimalPos.Unsigned.of_to.
  - cbn [NilZero.string_of_int append].
    rewrite string_of_uint_nonnil by apply DecimalPos.Unsigned.to_uint_nonnil.
    rewrite parseInt_negative;
      [| apply DecimalPos.Unsigned.to_uint_nonnil | exact Hrest].
    f_equal. rewrite <- of_uint_value. unfold Z.of_uint.
    now rewrite DecimalPos.Unsigned.of_to.
Qed.

Lemma trim_start_whitespace ws s :
  all_whitespace ws = true -> trim_start (ws ++ s)%string = trim_start s.
Proof.
  induction ws as [| c r IH]; [reflexivity |]. cbn [all_whitespace append trim_start].
  intros H. apply andb_true_iff in H. destruct H as [Hc Hr]. rewrite Hc. now apply IH.
Qed.



End ParseDecimal.

(* ------------------------------------------------------------------ *)
(** *** The counter while it runs                                      *)
(* ------------------------------------------------------------------ *)

Section CounterFrames.

Import CounterAnimation.

Lemma Qfloor_scaled cur m :
  (cur * 125 == inject_Z m)%Q -> Qfloor cur = (m / 125)%Z.
Proof.
  intros H.
  assert (E : (cur == m # 125)%Q).
  { unfold Qeq in *. cbn in *. lia. }
  rewrite (Qfloor_comp _ _ E). reflexivity.
Qed.

(** The invariant of the running animation, with the text it shows. *)
Lemma frames_showing c z k :
  parseInt_value (data "count" c) = Int z -> (0 < z)%Z -> k <= 123 ->
  exists cnt cur,
    frames k (animateCounter c)
    = mkAnimation cnt (Int z) (Fin (inject_Z z / (2000 / 16))) (Fin cur) true
    /\ dataset cnt = dataset c
    /\ (cur * 125 == inject_Z (Z.of_nat (S k) * z))%Q
    /\ textContent cnt = (floor_to_string (Fin cur) ++ suffix c)%string.
Proof.
  intros Hz Hpos. induction k as [| k IH]; intros Hk.
  - unfold animateCounter. rewrite Hz, step_of_target. simpl frames.
    rewrite (updateCounter_running _ z _ 0%Q _ 0%Z).
    + do 2 eexists. split; [reflexivity |]. split; [reflexivity |].
      split; [| reflexivity].
      change (Z.of_nat 1 * z)%Z with (1 * z)%Z. rewrite Z.mul_1_l.
      pose proof (step_scaled z). lra.
    + apply step_scaled.
    + reflexivity.
    + lia.
  - destruct IH as (cnt & cur & E & Hd & Hcur & _); [lia |].
    rewrite frames_S, E. unfold animation_frame. cbn [frame_requested].
    rewrite (updateCounter_running _ z _ cur _ (Z.of_nat (S k) * z)%Z).
    + do 2 eexists. split; [reflexivity |]. split; [exact Hd |].
      split.
      * replace (Z.of_nat (S (S k)) * z)%Z with (Z.of_nat (S k) * z + z)%Z by lia.
        rewrite inject_Z_plus. pose proof (step_scaled z). lra.
      * cbn [textContent with_textContent].
        now rewrite (suffix_same_dataset c cnt Hd).
    + apply step_scaled.
    + exact Hcur.
    + nia.
Qed.





End CounterFrames.

(* ------------------------------------------------------------------ *)
(** *** The progress bar under the throttle                            *)
(* ------------------------------------------------------------------ *)

Section ProgressThrottle.

Import ScrollProgress.

Lemma on_scroll_throttled w s : inThrottle s = true -> on_scroll w s = s.
Proof. intros H. unfold on_scroll. now rewrite H. Qed.

Lemma burst_throttled ws s :
  inThrottle s = true -> fold_left (fun acc w => on_scroll w acc) ws s = s.
Proof.
  intros H. induction ws as [| w r IH]; cbn [fold_left]; [reflexivity |].
  now rewrite on_scroll_throttled.
Qed.

(** X10.  The throttle runs the first scroll event of a burst and drops the
    others for good: when the burst is over and the 50 ms have passed, the
    bar still shows the position of the first event, not the one the page
    came to rest at. *)
Theorem progress_shows_first_of_burst (first : viewport) (others : list viewport) (s : t) :
  inThrottle s = false ->
  let after := fold_left (fun acc w => on_scroll w acc) others (on_scroll first s) in
  progressBar (on_throttle_timeout after) = update first (progressBar s)
  /\ inThrottle (on_throttle_timeout after) = false.
Proof.
  intros H after. subst after. unfold on_scroll at 2. rewrite H. cbn [negb].
  rewrite burst_throttled by reflexivity. split; reflexivity.
Qed.

Lemma progress_shows_first_of_burst_witness :
  inThrottle (mkProgress createElement false) = false
  /\ get_style "width"
       (progressBar
          (on_throttle_timeout
             (fold_left (fun acc w => on_scroll w acc)
                [mkViewport 1200 800 2000]
                (on_scroll half_way (mkProgress createElement false)))))
     = get_style "width" (update half_way createElement).
Proof.
  split; [reflexivity |].
  exact (f_equal (get_style "width")
           (proj1 (progress_shows_first_of_burst half_way [mkViewport 1200 800 2000]
                     (mkProgress createElement false) eq_refl))).
Defined.

(** X11.  For a document taller than the viewport and a scroll position
    from 0 to their difference, the percentage computed lies between 0 and
    100; it is 0 at the top and 100 at the bottom, and it does not decrease
    when the page is scrolled further down. *)
Theorem progress_between_0_and_100 (w : viewport) :
  (innerHeight w < scrollHeight w)%Q ->
  (0 <= scrollY w)%Q ->
  (scrollY w <= scrollHeight w - innerHeight w)%Q ->
  exists q, scrollPercent w = Fin q
    /\ (0 <= q <= 100)%Q
    /\ ((scrollY w == 0)%Q -> (q == 0)%Q)
    /\ ((scrollY w == scrollHeight w - innerHeight w)%Q -> (q == 100)%Q)
    /\ forall further,
         (scrollY w <= further)%Q ->
         exists q', scrollPercent (mkViewport further (innerHeight w) (scrollHeight w))
                    = Fin q' /\ (q <= q')%Q.
Proof.
  intros Htall Hpos Hmax.
  assert (Hd : (0 < scrollHeight w - innerHeight w)%Q) by lra.
  assert (Hne : ~ (scrollHeight w - innerHeight w == 0)%Q) by (intros E; lra).
  unfold scrollPercent. cbn [jsreal_sub jsreal_div scrollY innerHeight scrollHeight].
  rewrite (Qeq_bool_false _ Hne). cbn [jsreal_mul].
  eexists. split; [reflexivity |].
  assert (Hdiv : forall y, (0 <= y)%Q ->
            (0 <= y / (scrollHeight w - innerHeight w))%Q).
  { intros y Hy. apply Qle_shift_div_l; lra. }
  assert (Hup : forall y y', (y <= y')%Q ->
            (y / (scrollHeight w - innerHeight w)
             <= y' / (scrollHeight w - innerHeight w))%Q).
  { intros y y' Hy. apply Qle_shift_div_l; [exact Hd |].
    assert (E : (y / (scrollHeight w - innerHeight w)
                 * (scrollHeight w - innerHeight w) == y)%Q) by (field; exact Hne).
    lra. }
  assert (Hone : ((scrollHeight w - innerHeight w)
                  / (scrollHeight w - innerHeight w) == 1)%Q) by (field; exact Hne).
  split; [split |].
  - pose proof (Hdiv _ Hpos). lra.
  - pose proof (Hup _ _ Hmax). lra.
  - split; [| split].
    + intros E. rewrite E. field. exact Hne.
    + intros E. rewrite E. rewrite Hone. reflexivity.
    + intros further Hf. eexists. split; [reflexivity |].
      pose proof (Hup _ _ Hf). lra.
Qed.

Lemma progress_between_0_and_100_witness :
  (innerHeight half_way < scrollHeight half_way)%Q
  /\ (0 <= scrollY half_way)%Q
  /\ (scrollY half_way <= scrollHeight half_way - innerHeight half_way)%Q
  /\ exists q, scrollPercent half_way = Fin q /\ (0 <= q <= 100)%Q.
Proof.
  assert (H1 : (innerHeight half_way < scrollHeight half_way)%Q) by reflexivity.
  assert (H2 : (0 <= scrollY half_way)%Q) by (simpl; discriminate).
  assert (H3 : (scrollY half_way <= scrollHeight half_way - innerHeight half_way)%Q)
    by (simpl; discriminate).
  split; [exact H1 |]. split; [exact H2 |]. split; [exact H3 |].
  destruct (progress_between_0_and_100 half_way H1 H2 H3) as (q & Hq & Hr & _).
  exists q. split; assumption.
Defined.

End ProgressThrottle.

(* ------------------------------------------------------------------ *)
(** *** The search overlay, opened and closed                          *)
(* ------------------------------------------------------------------ *)

Section SearchRoundTrip.

Import SearchModal.

(** X12.  Opening a closed overlay and closing it again gives the overlay
    back its class list, token for token, and leaves the page scrollable
    (inline [overflow] empty); the focus of the input, requested by
    [open()], is still pending: closing does not cancel it. *)
Theorem search_open_close_round_trip (s : t) (m : node) :
  searchModal s = Some m ->
  is_open s = false ->
  exists s1 s2,
    open s = Normal s1 /\ close s1 = Normal s2
    /\ is_open s1 = true
    /\ get_style "overflow" (body s1) = Lit "hidden"
    /\ classList (modal s2) = classList (modal s)
    /\ get_style "overflow" (body s2) = Lit ""
    /\ focus_pending s2 = true.
Proof.
  intros Hm Hclosed. do 2 eexists.
  split; [unfold open; rewrite Hm; reflexivity |].
  split; [unfold close; cbn [searchModal]; reflexivity |].
  unfold is_open, has_class in *. cbn [modal body focus_pending classList with_classList].
  rewrite !get_set_style.
  split; [apply contains_add_same |]. split; [reflexivity |].
  split; [| split; reflexivity].
  unfold ClassList.add. rewrite Hclosed. now apply remove_app_absent.
Qed.

Lemma search_open_close_round_trip_witness :
  searchModal Samples.search_page_closed = Some 2
  /\ is_open Samples.search_page_closed = false
  /\ exists s1 s2, open Samples.search_page_closed = Normal s1 /\ close s1 = Normal s2
       /\ classList (modal s2) = ["search-modal"].
Proof.
  split; [reflexivity |]. split; [reflexivity |].
  destruct (search_open_close_round_trip Samples.search_page_closed 2 eq_refl eq_refl)
    as (s1 & s2 & E1 & E2 & _ & _ & Hc & _).
  exists s1, s2. auto.
Defined.

Lemma listeners_without_overlay ev s n :
  searchModal s = None -> listeners_at ev s n = s.
Proof.
  intros H. unfold listeners_at, open, close. rewrite H. cbn.
  destruct (is_node (searchBtn s) n); cbn; rewrite ?H;
    destruct (is_node (searchClose s) n); cbn; rewrite ?H; reflexivity.
Qed.

(** X13.  On a page without [#searchModal] the controller does nothing at
    all: a click, on the trigger or anywhere else, leaves every element as
    it was (the listener of the trigger throws before it writes), and so
    does any key. *)
Theorem search_without_overlay_is_inert (s : t) :
  searchModal s = None ->
  (forall ev, on_click ev s = s)
  /\ (forall key, on_keydown key s = s)
  /\ returns (open s) = false.
Proof.
  intros H. split; [| split].
  - intros ev. unfold on_click. induction (path ev) as [| n r IH]; cbn [fold_left].
    + reflexivity.
    + now rewrite listeners_without_overlay.
  - intros key. unfold on_keydown. rewrite H. now rewrite andb_false_r.
  - unfold open. now rewrite H.
Qed.

Lemma search_without_overlay_is_inert_witness :
  let s := mkSearch (Some 1) None None None createElement createElement false in
  searchModal s = None /\ on_click (mkClick 1 [0]) s = s.
Proof.
  cbn zeta. split; [reflexivity |].
  exact (proj1 (search_without_overlay_is_inert
                  (mkSearch (Some 1) None None None createElement createElement false)
                  eq_refl) (mkClick 1 [0])).
Defined.

End SearchRoundTrip.

(* ------------------------------------------------------------------ *)
(** *** Lightboxes opened and dismissed in turn                        *)
(* ------------------------------------------------------------------ *)

Section LightboxAgain.

Import GalleryLightbox LightboxCycles.

Lemma detach_absent n l : (forall x, In x l -> id x <> n) -> detach n l = l.
Proof.
  unfold detach. induction l as [| x r IH]; intros H; cbn; [reflexivity |].
  destruct (Nat.eqb_spec (id x) n) as [E | _].
  - now elim (H x (or_introl eq_refl)).
  - cbn. f_equal. apply IH. intros y Hy. apply H. now right.
Qed.

Lemma detach_app n l l' : detach n (l ++ l') = detach n l ++ detach n l'.
Proof. apply filter_app. Qed.

Lemma unused_head n d : unused n d -> forall x, In x (head d) -> id x <> n.
Proof. intros H x Hx. apply H. apply in_or_app. now left. Qed.

Lemma unused_body n d : unused n d -> forall x, In x (body d) -> id x <> n.
Proof. intros H x Hx. apply H. apply in_or_app. now right. Qed.

Lemma dismiss_unused o d :
  unused (lightbox o) d -> unused (injected o) d -> dismiss o d = d.
Proof.
  intros Hl Hi. unfold dismiss, remove. cbn [head body keydown fresh].
  rewrite (detach_absent (lightbox o) (head d)) by now apply unused_head.
  rewrite (detach_absent (lightbox o) (body d)) by now apply unused_body.
  rewrite (detach_absent (injected o) (head d)) by now apply unused_head.
  rewrite (detach_absent (injected o) (body d)) by now apply unused_body.
  now destruct d.
Qed.

(** Dismissing the overlay just opened, on a document where its two
    identities were free, gives back head and body as they were. *)
Lemma dismiss_opened img d :
  unused (fresh d) d -> unused (S (fresh d)) d ->
  dismiss (new_overlay d) (state_of (openLightbox (Some img) d))
  = mkDocument (head d) (body d) (keydown d ++ [new_overlay d]) (S (S (fresh d))).
Proof.
  intros H0 H1. unfold dismiss, remove.
  cbn [openLightbox state_of head body keydown fresh].
  unfold new_overlay. cbn [lightbox injected].
  rewrite !detach_app.
  rewrite (detach_absent (fresh d) (head d)) by now apply unused_head.
  rewrite (detach_absent (fresh d) (body d)) by now apply unused_body.
  rewrite (detach_absent (S (fresh d)) (head d)) by now apply unused_head.
  rewrite (detach_absent (S (fresh d)) (body d)) by now apply unused_body.
  assert (E : (S (fresh d) =? fresh d) = false) by (apply Nat.eqb_neq; lia).
  unfold detach. cbn [filter id].
  rewrite ?Nat.eqb_refl, ?E. cbn [negb filter id].
  rewrite ?Nat.eqb_refl, ?E. cbn [negb filter id].
  now rewrite !app_nil_r.
Qed.

Lemma escape_skips_old l d :
  (forall o, In o l -> unused (lightbox o) d /\ unused (injected o) d) ->
  fold_left (fun acc o => if String.eqb "Escape" "Escape" then dismiss o acc else acc)
            l d = d.
Proof.
  induction l as [| o r IH]; intros H; cbn [fold_left]; [reflexivity |].
  rewrite String.eqb_refl.
  destruct (H o (or_introl eq_refl)) as [Hl Hi].
  rewrite (dismiss_unused o d Hl Hi).
  change (fold_left (fun acc o0 => dismiss o0 acc) r d)
    with (fold_left (fun acc o0 =>
            if String.eqb "Escape" "Escape" then dismiss o0 acc else acc) r d).
  apply IH. intros o' Ho'. apply H. now right.
Qed.

Lemma cycle_settled d v :
  settled d ->
  cycle d v
  = mkDocument (head d) (body d) (keydown d ++ [new_overlay d]) (S (S (fresh d)))
  /\ settled (cycle d v).
Proof.
  intros [Hids Hold].
  assert (H0 : unused (fresh d) d).
  { intros x Hx E. specialize (Hids x Hx). lia. }
  assert (H1 : unused (S (fresh d)) d).
  { intros x Hx E. specialize (Hids x Hx). lia. }
  assert (E : cycle d v
              = mkDocument (head d) (body d) (keydown d ++ [new_overlay d])
                           (S (S (fresh d)))).
  { destruct v as [img how]. unfold cycle. cbn [fst snd].
    destruct how; cbn [dismiss_by].
    - apply (dismiss_opened img d H0 H1).
    - apply (dismiss_opened img d H0 H1).
    - unfold on_keydown.
      replace (keydown (state_of (openLightbox (Some img) d)))
        with (keydown d ++ [new_overlay d]) by reflexivity.
      rewrite fold_left_app. rewrite (escape_skips_old (keydown d)).
      + cbn [fold_left]. rewrite String.eqb_refl. apply (dismiss_opened img d H0 H1).
      + intros o Ho. destruct (Hold o Ho) as (Lo & Io & Ul & Ui).
        unfold unused, all_nodes. cbn [openLightbox state_of head body].
        split; intros x Hx; rewrite <- app_assoc in Hx;
          repeat (apply in_app_or in Hx; destruct Hx as [Hx | Hx]);
          try (first [apply Ul | apply Ui]; apply in_or_app; auto; fail);
          destruct Hx as [<- | []]; cbn; unfold new_overlay; cbn; lia. }
  split; [exact E |]. rewrite E. unfold settled, unused, all_nodes.
  cbn [head body keydown fresh]. split.
  - intros x Hx. specialize (Hids x Hx). lia.
  - intros o Ho. apply in_app_or in Ho. destruct Ho as [Ho | [<- | []]].
    + destruct (Hold o Ho) as (Lo & Io & Ul & Ui). repeat split; try lia; assumption.
    + unfold new_overlay. cbn. repeat split; try lia; assumption.
Qed.


Lemma plain_page_settled : settled plain_page.
Proof.
  unfold settled, unused, all_nodes, plain_page. cbn. split.
  - intros x [<- | [<- | []]]; cbn; lia.
  - intros o [].
Qed.


End LightboxAgain.

Section TwoLightboxes.

Import GalleryLightbox LightboxCycles.

Lemma opened_ids_in_order img d :
  (forall x, In x (all_nodes d) -> id x < fresh d) ->
  forall x, In x (all_nodes (state_of (openLightbox (Some img) d))) ->
            id x < fresh (state_of (openLightbox (Some img) d)).
Proof.
  intros H x Hx. unfold all_nodes in *. cbn [openLightbox state_of head body fresh] in *.
  rewrite <- app_assoc in Hx.
  repeat (apply in_app_or in Hx; destruct Hx as [Hx | Hx]).
  - assert (id x < fresh d) by (apply H; apply in_or_app; auto). lia.
  - destruct Hx as [<- | []]. cbn. lia.
  - assert (id x < fresh d) by (apply H; apply in_or_app; auto). lia.
  - destruct Hx as [<- | []]. cbn. lia.
Qed.

Lemma unused_beyond n d :
  (forall x, In x (all_nodes d) -> id x < fresh d) -> fresh d <= n -> unused n d.
Proof. intros H Hn x Hx E. specialize (H x Hx). lia. Qed.

Lemma unused_in_opened n img d :
  unused n d -> n < fresh d -> unused n (state_of (openLightbox (Some img) d)).
Proof.
  intros H Hn x Hx. unfold all_nodes in Hx.
  cbn [openLightbox state_of head body] in Hx. rewrite <- app_assoc in Hx.
  repeat (apply in_app_or in Hx; destruct Hx as [Hx | Hx]);
    try (apply H; apply in_or_app; auto; fail);
    destruct Hx as [<- | []]; unfold new_overlay; cbn; lia.
Qed.



End TwoLightboxes.

(* ------------------------------------------------------------------ *)
(** *** Any click on a like button                                     *)
(* ------------------------------------------------------------------ *)

Section LikeAnyState.

Import LikeButtonHandler.

Lemma contains_toggle tok l :
  ClassList.contains tok (ClassList.toggle tok l) = negb (ClassList.contains tok l).
Proof.
  unfold ClassList.toggle. destruct (ClassList.contains tok l) eqn:E; cbn.
  - apply contains_remove_same.
  - apply contains_In, in_app_iff. right. now left.
Qed.

(** X16.  Whatever classes and color button and icon carry before, a click
    flips [liked] on the button and leaves the icon in step with it: [fas]
    without [far] and the color [#e94560] when the button is now liked,
    [far] without [fas] and no color when it is not.  On a button without
    an icon the click flips [liked] all the same and then throws. *)
Theorem like_click_from_any_state (b : Element) (i : option Element) :
  let s' := state_of (on_click (mkLike b i)) in
  has_class "liked" (btn s') = negb (has_class "liked" b)
  /\ match i with
     | None => returns (on_click (mkLike b i)) = false /\ icon s' = None
     | Some _ =>
         returns (on_click (mkLike b i)) = true
         /\ exists i', icon s' = Some i'
              /\ has_class "fas" i' = has_class "liked" (btn s')
              /\ has_class "far" i' = negb (has_class "liked" (btn s'))
              /\ get_style "color" i'
                 = (if has_class "liked" (btn s') then Lit "#e94560" else Lit "")
     end.
Proof.
  cbn zeta. unfold on_click. cbn [btn icon].
  assert (T : has_class "liked" (with_classList (ClassList.toggle "liked") b)
              = negb (has_class "liked" b)).
  { unfold has_class. cbn [classList with_classList]. apply contains_toggle. }
  assert (Hne : "fas" <> "far") by discriminate.
  assert (Hne' : "far" <> "fas") by discriminate.
  destruct i as [i |].
  - destruct (has_class "liked" (with_classList (ClassList.toggle "liked") b)) eqn:L;
      cbn [state_of returns btn icon]; rewrite L.
    + split; [exact T |]. split; [reflexivity |]. eexists. split; [reflexivity |].
      unfold has_class. cbn [classList with_classList set_style].
      rewrite get_set_style, contains_add_same.
      rewrite contains_add_other by exact Hne. rewrite contains_remove_same. auto.
    + split; [exact T |]. split; [reflexivity |]. eexists. split; [reflexivity |].
      unfold has_class. cbn [classList with_classList set_style].
      rewrite get_set_style, contains_add_same.
      rewrite contains_add_other by exact Hne'. rewrite contains_remove_same. auto.
  - cbn [state_of returns btn icon]. auto.
Qed.

End LikeAnyState.

(* ------------------------------------------------------------------ *)
(** *** Utils: throttle, debounce, isInViewport                        *)
(* ------------------------------------------------------------------ *)

Section RateLimits.

Import Utils.

Variables A S : Type.
Variable func : A -> S -> S.

Lemma throttle_calls_from limit calls last s :
  throttled_state (throttle_calls func limit calls (Throttle.after limit last s))
  = apply_all func (let_through limit last calls) s.
Proof.
  unfold throttle_calls, apply_all. revert last s.
  induction calls as [| [now args] rest IH]; intros last s; [now destruct last |].
  cbn [fold_left let_through]. destruct last as [t |].
  - unfold throttle_call at 2, throttle_timeout. cbn [Throttle.after clears_at].
    destruct (Z.leb_spec (t + delay limit) now) as [Hle | Hgt].
    + cbn [inThrottle negb throttled_state fold_left snd].
      apply (IH (Some now)).
    + cbn [inThrottle negb]. apply (IH (Some t)).
  - unfold throttle_call at 2, throttle_timeout, throttle.
    cbn [Throttle.after clears_at inThrottle negb throttled_state fold_left snd].
    apply (IH (Some now)).
Qed.


Lemma debounce_calls_from wait until calls pending s :
  debounced_state
    (debounce_timeout func until
       (debounce_calls func wait calls (mkDebounced pending s)))
  = match calls with
    | [] => debounced_state (debounce_timeout func until (mkDebounced pending s))
    | (t, _) :: _ =>
        apply_all func (followed_by_silence wait until calls)
          (debounced_state (debounce_timeout func t (mkDebounced pending s)))
    end.
Proof.
  unfold debounce_calls. revert pending s.
  induction calls as [| [now args] rest IH]; intros pending s; [reflexivity |].
  cbn [fold_left]. unfold debounce_call at 2.
  set (s1 := debounced_state (debounce_timeout func now (mkDebounced pending s))).
  rewrite IH. cbn [followed_by_silence]. destruct rest as [| [t args'] rest'].
  - unfold debounce_timeout. cbn [timeout debounced_state].
    destruct (Z.leb_spec (now + delay wait) until); reflexivity.
  - unfold debounce_timeout at 1. cbn [timeout debounced_state].
    destruct (Z.leb_spec (now + delay wait) t); reflexivity.
Qed.

Lemma debounce_settles wait until (calls : list (Z * A)) (s : S) :
  debounced_state
    (debounce_timeout func until (debounce_calls func wait calls (debounce A s)))
  = apply_all func (followed_by_silence wait until calls) s.
Proof.
  unfold debounce. rewrite debounce_calls_from.
  destruct calls as [| [t args] rest]; reflexivity.
Qed.


Lemma burst_only_last wait until (calls : list (Z * A)) t (args : A) :
  burst wait (calls ++ [(t, args)]) ->
  (t + delay wait <= until)%Z ->
  followed_by_silence wait until (calls ++ [(t, args)]) = [(t, args)].
Proof.
  intros Hb Hu. induction calls as [| [t0 a0] rest IH].
  - cbn. destruct (Z.leb_spec (t + delay wait) until); [reflexivity | lia].
  - rewrite <- app_comm_cons in *. remember (rest ++ [(t, args)]) as l eqn:E.
    destruct l as [| [t1 a1] rest'].
    + destruct rest; discriminate E.
    + change (burst wait ((t0, a0) :: (t1, a1) :: rest'))
        with ((t1 < t0 + delay wait)%Z /\ burst wait ((t1, a1) :: rest')) in Hb.
      destruct Hb as [Hlt Hb].
      change (followed_by_silence wait until ((t0, a0) :: (t1, a1) :: rest'))
        with (if (t0 + delay wait <=? t1)%Z
              then (t0, a0) :: followed_by_silence wait until ((t1, a1) :: rest')
              else followed_by_silence wait until ((t1, a1) :: rest')).
      destruct (Z.leb_spec (t0 + delay wait) t1); [lia |]. now apply IH.
Qed.

(** X19.  Of a burst of calls to a debounced function, each less than
    [wait] ms after the one before, only the last call runs the function,
    once, with its own arguments, when [wait] ms have passed after it. *)
Theorem debounce_burst_runs_last
  (wait until : Z) (calls : list (Z * A)) (t : Z) (args : A) (s : S) :
  burst wait (calls ++ [(t, args)]) ->
  (t + delay wait <= until)%Z ->
  debounced_state
    (debounce_timeout func until
       (debounce_calls func wait (calls ++ [(t, args)]) (debounce A s)))
  = func args s.
Proof.
  intros Hb Hu. rewrite debounce_settles.
  now rewrite (burst_only_last wait until calls t args Hb Hu).
Qed.

End RateLimits.

Lemma debounce_burst_runs_last_witness :
  Utils.burst 300 [(0%Z, 1); (100%Z, 2); (350%Z, 3)]
  /\ (350 + Utils.delay 300 <= 1000)%Z
  /\ Utils.debounced_state
       (Utils.debounce_timeout (fun n log => n :: log) 1000
          (Utils.debounce_calls (fun n log => n :: log) 300
             [(0%Z, 1); (100%Z, 2); (350%Z, 3)] (Utils.debounce nat [])))
     = [3].
Proof.
  assert (Hb : Utils.burst 300 ([(0%Z, 1); (100%Z, 2)] ++ [(350%Z, 3)])).
  { cbn. lia. }
  assert (Hu : (350 + Utils.delay 300 <= 1000)%Z) by (cbn; lia).
  split; [exact Hb |]. split; [exact Hu |].
  exact (debounce_burst_runs_last nat (list nat) (fun n log => n :: log)
           300 1000 [(0%Z, 1); (100%Z, 2)] 350 3 [] Hb Hu).
Defined.

Section Viewport.

Import Utils.

(** X20.  An element that [isInViewport] accepts is no wider and no taller
    than the viewport, whose size is that of the window or, where the window
    reports zero, that of the root element; so an element larger than the
    viewport is never in it, however it is scrolled. *)
Theorem in_viewport_fits (rect : DOMRect) (w : sizes) :
  isInViewport rect w = true ->
  (bottom rect - top rect <= or_else (innerHeight w) (clientHeight w))%Q
  /\ (right rect - left rect <= or_else (innerWidth w) (clientWidth w))%Q.
Proof.
  unfold isInViewport. intros H.
  apply andb_true_iff in H. destruct H as [H Hr].
  apply andb_true_iff in H. destruct H as [H Hb].
  apply andb_true_iff in H. destruct H as [Ht Hl].
  apply Qle_bool_iff in Ht, Hl, Hb, Hr. split; lra.
Qed.

Lemma in_viewport_fits_witness :
  isInViewport (mkRect 10 20 300 400) (mkSizes 0 1024 768 1000) = true
  /\ (bottom (mkRect 10 20 300 400) - top (mkRect 10 20 300 400) <= 768)%Q.
Proof.
  split; [reflexivity |].
  exact (proj1 (in_viewport_fits (mkRect 10 20 300 400) (mkSizes 0 1024 768 1000)
                  eq_refl)).
Defined.

End Viewport.

(* ------------------------------------------------------------------ *)
(** *** The navigation bar                                             *)
(* ------------------------------------------------------------------ *)

Section NavigationBar.

Import Navigation.

Lemma has_class_toggle tok e :
  has_class tok (with_classList (ClassList.toggle tok) e) = negb (has_class tok e).
Proof. unfold has_class. cbn [classList with_classList]. apply contains_toggle. Qed.

Lemma hamburger_click_flips s h m :
  hamburger s = Some h -> navMenu s = Some m ->
  exists h' m',
    hamburger (state_of (on_hamburger_click s)) = Some h'
    /\ navMenu (state_of (on_hamburger_click s)) = Some m'
    /\ has_class "active" h' = negb (has_class "active" h)
    /\ has_class "active" m' = negb (has_class "active" m)
    /\ get_style "overflow" (body (state_of (on_hamburger_click s)))
       = Lit (if has_class "active" m' then "hidden" else "").
Proof.
  intros Hh Hm. unfold on_hamburger_click. rewrite Hh, Hm.
  cbn [state_of hamburger navMenu body]. do 2 eexists.
  split; [reflexivity |]. split; [reflexivity |].
  rewrite !has_class_toggle, get_set_style. auto.
Qed.

(** X21.  On a page with a hamburger and a menu that start in step (both
    with [active] or both without), any number of clicks on the hamburger
    keeps them in step: after [n] clicks both carry [active] exactly when
    [n] is odd and they did not before, or [n] is even and they did; and
    once clicked, the page's inline [overflow] is [hidden] exactly while
    the menu is open. *)
Theorem hamburger_keeps_menu_in_step (s : t) (h m : Element) (n : nat) :
  hamburger s = Some h -> navMenu s = Some m ->
  has_class "active" h = has_class "active" m ->
  let s' := hamburger_clicks n s in
  carries "active" (hamburger s') = xorb (Nat.odd n) (has_class "active" m)
  /\ carries "active" (navMenu s') = xorb (Nat.odd n) (has_class "active" m)
  /\ (1 <= n ->
      get_style "overflow" (body s')
      = Lit (if carries "active" (navMenu s') then "hidden" else "")).
Proof.
  intros Hh Hm Hstep. cbn zeta.
  assert (H : exists hn mn,
            hamburger (hamburger_clicks n s) = Some hn
            /\ navMenu (hamburger_clicks n s) = Some mn
            /\ has_class "active" hn = xorb (Nat.odd n) (has_class "active" m)
            /\ has_class "active" mn = xorb (Nat.odd n) (has_class "active" m)
            /\ (1 <= n ->
                get_style "overflow" (body (hamburger_clicks n s))
                = Lit (if has_class "active" mn then "hidden" else ""))).
  { induction n as [| n (hn & mn & Hhn & Hmn & Ah & Am & _)].
    - exists h, m. cbn. rewrite Hstep.
      repeat split; auto; try (now destruct (has_class "active" m)); lia.
    - change (hamburger_clicks (S n) s)
        with (state_of (on_hamburger_click (hamburger_clicks n s))).
      destruct (hamburger_click_flips _ hn mn Hhn Hmn)
        as (h' & m' & Hh' & Hm' & Fh & Fm & Ho).
      exists h', m'. rewrite Nat.odd_succ, <- Nat.negb_odd.
      split; [exact Hh' |]. split; [exact Hm' |].
      split; [rewrite Fh, Ah; now destruct (Nat.odd n), (has_class "active" m) |].
      split; [rewrite Fm, Am; now destruct (Nat.odd n), (has_class "active" m) |].
      intros _. exact Ho. }
  destruct H as (hn & mn & Hhn & Hmn & Ah & Am & Ho).
  rewrite Hhn, Hmn. cbn [carries]. auto.
Qed.

Lemma hamburger_keeps_menu_in_step_witness :
  hamburger Samples.mobile_nav = Some (mkElement ["hamburger"] [] [] "")
  /\ navMenu Samples.mobile_nav = Some (mkElement ["nav-menu"] [] [] "")
  /\ carries "active" (navMenu (hamburger_clicks 3 Samples.mobile_nav)) = true
  /\ get_style "overflow" (body (hamburger_clicks 3 Samples.mobile_nav)) = Lit "hidden".
Proof.
  pose proof (hamburger_keeps_menu_in_step Samples.mobile_nav _ _ 3 eq_refl eq_refl eq_refl)
    as (_ & Hm & Ho).
  split; [reflexivity |]. split; [reflexivity |]. split; [exact Hm |].
  cbn zeta in Ho. rewrite (Ho ltac:(lia)), Hm. reflexivity.
Defined.

Lemma nth_error_marked_link (l : list NavLink) i j x :
  nth_error (update_nth i (link_with_classList (ClassList.add "active"))
               (map (link_with_classList (ClassList.remove "active")) l)) j = Some x ->
  link_active x = Nat.eqb j i.
Proof.
  rewrite nth_error_update_nth, nth_error_map.
  destruct (Nat.eqb j i); destruct (nth_error l j); cbn; intros H; inversion H;
    unfold link_active, link_with_classList; cbn [anchor].
  - apply has_class_add_same.
  - apply has_class_remove_same.
Qed.

(** X22.  On a viewport at most 1024 px wide, a click on an in-page link
    whose target exists returns; the clicked link is then the one link
    marked [active], the window has been asked to scroll to the target's
    position less 80 px, and the mobile menu is closed: neither hamburger
    nor menu carries [active] and the page's inline [overflow] is empty. *)
Theorem nav_link_click_on_mobile
  (find : option string -> lookup) (w : window) (i : nat) (s : t)
  (link : NavLink) (rect_top : Q) (h m : Element) :
  nth_error (navLinks s) i = Some link ->
  find (href link) = Found rect_top ->
  (innerWidth w <= 1024)%Z ->
  hamburger s = Some h -> navMenu s = Some m ->
  exists s',
    on_nav_link_click find w i s = Normal s'
    /\ (forall j x, nth_error (navLinks s') j = Some x -> link_active x = Nat.eqb j i)
    /\ scroll_request s' = Some (rect_top + scrollY w - 80)%Q
    /\ carries "active" (hamburger s') = false
    /\ carries "active" (navMenu s') = false
    /\ get_style "overflow" (body s') = Lit "".
Proof.
  intros Hl Hf Hw Hh Hm. unfold on_nav_link_click. rewrite Hl, Hf, Hh, Hm.
  destruct (Z.leb_spec (innerWidth w) 1024) as [_ | Hgt]; [| lia].
  eexists. split; [reflexivity |].
  cbn [navLinks scroll_request hamburger navMenu body carries].
  split; [intros j x; apply nth_error_marked_link |].
  split; [reflexivity |].
  rewrite !has_class_remove_same, get_set_style. auto.
Qed.

Lemma nav_link_click_on_mobile_witness :
  let find := fun target : option string => Found 900 in
  (innerWidth (mkWindow 120 390) <= 1024)%Z
  /\ exists s',
       on_nav_link_click find (mkWindow 120 390) 1 (hamburger_clicks 1 Samples.mobile_nav)
       = Normal s'
       /\ scroll_request s' = Some (900 + 120 - 80)%Q
       /\ carries "active" (navMenu s') = false.
Proof.
  cbn zeta. assert (Hw : (innerWidth (mkWindow 120 390) <= 1024)%Z) by (cbn; lia).
  split; [exact Hw |].
  destruct (nav_link_click_on_mobile (fun _ => Found 900) (mkWindow 120 390) 1
              (hamburger_clicks 1 Samples.mobile_nav) _ 900 _ _ eq_refl eq_refl Hw
              eq_refl eq_refl)
    as (s' & E & _ & Hr & _ & Hm & _).
  exists s'. auto.
Defined.

End NavigationBar.

(* ------------------------------------------------------------------ *)
(** *** The link of the section in view                                *)
(* ------------------------------------------------------------------ *)

Section ActiveLink.

Import ActiveNavLink.

Lemma mark_mark id id' link : mark id (mark id' link) = mark id link.
Proof.
  assert (E : link_with_classList (ClassList.remove "active") (mark id' link)
              = link_with_classList (ClassList.remove "active") link).
  { unfold mark. destruct (strict_eq (href link) _);
      unfold link_with_classList, with_classList;
      cbn [anchor href classList dataset style textContent].
    - now rewrite remove_add_remove.
    - now rewrite remove_remove. }
  unfold mark at 1.
  assert (Hh : href (mark id' link) = href link).
  { unfold mark. now destruct (strict_eq (href link) _). }
  rewrite Hh, E. reflexivity.
Qed.

Lemma update_update id id' links :
  updateActiveLink id (updateActiveLink id' links) = updateActiveLink id links.
Proof.
  unfold updateActiveLink. rewrite map_map. apply map_ext. intros l. apply mark_mark.
Qed.

Lemma mark_active id link :
  link_active (mark id link) = strict_eq (href link) (Some ("#" ++ id)%string).
Proof.
  unfold mark, link_active.
  destruct (strict_eq (href link) _); unfold link_with_classList; cbn [anchor].
  - apply has_class_add_same.
  - apply has_class_remove_same.
Qed.

Lemma on_intersection_from entries links acc :
  fold_left
    (fun a e => if isIntersecting e then updateActiveLink (target_id e) a else a)
    entries
    (match acc with Some id => updateActiveLink id links | None => links end)
  = match fold_left (fun a e => if isIntersecting e then Some (target_id e) else a)
            entries acc with
    | Some id => updateActiveLink id links
    | None => links
    end.
Proof.
  revert acc. induction entries as [| e r IH]; intros acc; cbn [fold_left];
    [reflexivity |].
  destruct (isIntersecting e).
  - rewrite <- (IH (Some (target_id e))). f_equal.
    destruct acc; [apply update_update | reflexivity].
  - apply IH.
Qed.

(** X23.  When the observer reports several sections in one batch, the
    last one of the batch that intersects decides alone: the links are
    exactly what a single update for that section gives, a link being
    marked [active] if and only if its [href] is [#] followed by that
    section's id.  A batch in which no section intersects changes
    nothing. *)
Theorem last_intersecting_section_wins (entries : list entry) (links : list NavLink) :
  match last_intersecting entries with
  | Some id =>
      on_intersection entries links = updateActiveLink id links
      /\ Forall (fun l => link_active l = strict_eq (href l) (Some ("#" ++ id)%string))
                (on_intersection entries links)
  | None => on_intersection entries links = links
  end.
Proof.
  pose proof (on_intersection_from entries links None) as H. cbn beta iota in H.
  unfold on_intersection, last_intersecting. rewrite H.
  destruct (fold_left _ entries None) as [id |]; [| reflexivity].
  split; [reflexivity |]. apply Forall_forall. intros l Hl.
  unfold updateActiveLink in Hl. apply in_map_iff in Hl. destruct Hl as (l0 & <- & _).
  rewrite mark_active. f_equal. unfold mark.
  now destruct (strict_eq (href l0) _).
Qed.

End ActiveLink.

(* ------------------------------------------------------------------ *)
(** *** Two controllers, one scroll lock                               *)
(* ------------------------------------------------------------------ *)

Section SharedBody.

Import Page.

(** X24.  The mobile menu and the search overlay both lock the page by the
    inline [overflow] of [document.body], and each unlocks it on its own.
    Open the menu, open the search overlay, press Escape: the overlay
    closes and takes the lock with it, so that the page scrolls again
    behind a menu that is still open. *)
Theorem closing_search_unlocks_open_menu (p : t) (h m : Element) (overlay : nat) :
  Navigation.hamburger (nav p) = Some h ->
  Navigation.navMenu (nav p) = Some m ->
  has_class "active" m = false ->
  SearchModal.searchModal (search p) = Some overlay ->
  let p1 := by_navigation Navigation.on_hamburger_click p in
  let p2 := by_search (fun s => state_of (SearchModal.open s)) p1 in
  let p3 := by_search (SearchModal.on_keydown "Escape") p2 in
  menu_open p1 = true /\ scroll_locked p1 = true
  /\ overlay_open p2 = true /\ scroll_locked p2 = true
  /\ overlay_open p3 = false /\ menu_open p3 = true /\ scroll_locked p3 = false.
Proof.
  intros Hh Hm Hclosed Ho. cbn zeta.
  set (m' := with_classList (ClassList.toggle "active") m).
  assert (Am : has_class "active" m' = true).
  { unfold m'. now rewrite has_class_toggle, Hclosed. }
  assert (E1 : by_navigation Navigation.on_hamburger_click p
               = mkPage (set_style "overflow" (Lit "hidden") (body p))
                   (Navigation.mkNavigation (Navigation.navbar (nav p))
                      (Some (with_classList (ClassList.toggle "active") h)) (Some m')
                      (Navigation.navLinks (nav p)) (Navigation.dropdownItems (nav p))
                      (set_style "overflow" (Lit "hidden") (body p))
                      (Navigation.scroll_request (nav p)))
                   (search p)).
  { unfold by_navigation, Navigation.on_hamburger_click, Navigation.with_body.
    cbn [Navigation.hamburger Navigation.navMenu Navigation.navbar
         Navigation.navLinks Navigation.dropdownItems Navigation.body
         Navigation.scroll_request].
    rewrite Hh, Hm. fold m'. rewrite Am. reflexivity. }
  rewrite E1. clear E1.
  set (b1 := set_style "overflow" (Lit "hidden") (body p)).
  set (n1 := Navigation.mkNavigation _ _ _ _ _ _ _).
  assert (E2 : by_search (fun s => state_of (SearchModal.open s)) (mkPage b1 n1 (search p))
               = mkPage (set_style "overflow" (Lit "hidden") b1) n1
                   (SearchModal.mkSearch (SearchModal.searchBtn (search p))
                      (SearchModal.searchModal (search p))
                      (SearchModal.searchClose (search p))
                      (SearchModal.searchInput (search p))
                      (with_classList (ClassList.add "active")
                         (SearchModal.modal (search p)))
                      (set_style "overflow" (Lit "hidden") b1) true)).
  { unfold by_search, search_with_body, SearchModal.open.
    cbn [search body nav SearchModal.searchModal]. rewrite Ho. reflexivity. }
  rewrite E2. clear E2.
  set (b2 := set_style "overflow" (Lit "hidden") b1).
  set (s2 := SearchModal.mkSearch _ _ _ _ _ _ _).
  assert (E3 : by_search (SearchModal.on_keydown "Escape") (mkPage b2 n1 s2)
               = mkPage (set_style "overflow" (Lit "") b2) n1
                   (SearchModal.mkSearch (SearchModal.searchBtn (search p))
                      (SearchModal.searchModal (search p))
                      (SearchModal.searchClose (search p))
                      (SearchModal.searchInput (search p))
                      (with_classList (ClassList.remove "active")
                         (with_classList (ClassList.add "active")
                            (SearchModal.modal (search p))))
                      (set_style "overflow" (Lit "") b2) true)).
  { unfold by_search, search_with_body, SearchModal.on_keydown, SearchModal.close, s2.
    cbn [search body nav SearchModal.searchModal SearchModal.modal SearchModal.body
         SearchModal.searchBtn SearchModal.searchClose SearchModal.searchInput
         SearchModal.focus_pending].
    rewrite Ho, has_class_add_same. reflexivity. }
  rewrite E3. clear E3.
  unfold menu_open, overlay_open, scroll_locked, SearchModal.is_open, s2, n1, b2, b1.
  cbn [nav search body Navigation.navMenu Navigation.carries SearchModal.modal].
  rewrite !get_set_style, Am, has_class_add_same, has_class_remove_same. auto 10.
Qed.

Lemma closing_search_unlocks_open_menu_witness :
  let p := mkPage createElement Samples.mobile_nav Samples.search_page_closed in
  menu_open
    (by_search (SearchModal.on_keydown "Escape")
       (by_search (fun s => state_of (SearchModal.open s))
          (by_navigation Navigation.on_hamburger_click p))) = true
  /\ scroll_locked
       (by_search (SearchModal.on_keydown "Escape")
          (by_search (fun s => state_of (SearchModal.open s))
             (by_navigation Navigation.on_hamburger_click p))) = false.
Proof.
  cbn zeta.
  pose proof (closing_search_unlocks_open_menu
                (mkPage createElement Samples.mobile_nav Samples.search_page_closed)
                _ _ 2 eq_refl eq_refl eq_refl eq_refl)
    as (_ & _ & _ & _ & _ & Hm & Hl).
  split; [exact Hm | exact Hl].
Defined.

End SharedBody.

(* ------------------------------------------------------------------ *)
(** *** Submitting a form                                              *)
(* ------------------------------------------------------------------ *)

Section Forms.

Import FormHandler.

Lemma filter_none {A : Type} (p : A -> bool) l :
  (forall x, In x l -> p x = false) -> filter p l = [].
Proof.
  induction l as [| x r IH]; intros H; cbn; [reflexivity |].
  rewrite (H x (or_introl eq_refl)). apply IH. intros y Hy. apply H. now right.
Qed.

Lemma filter_all {A : Type} (p : A -> bool) l :
  (forall x, In x l -> p x = true) -> filter p l = l.
Proof.
  induction l as [| x r IH]; intros H; cbn; [reflexivity |].
  rewrite (H x (or_introl eq_refl)). f_equal. apply IH. intros y Hy. apply H. now right.
Qed.

Lemma forms_millisecond_idle s :
  (forall k, In k (tasks s) -> due_of k <> (clock s + 1)%Z) ->
  millisecond s = at_clock (clock s + 1) s.
Proof.
  intros H. unfold millisecond.
  rewrite filter_none, filter_all; [reflexivity | |];
    intros k Hk; specialize (H k Hk).
  - apply negb_true_iff. now apply Z.eqb_neq.
  - now apply Z.eqb_neq.
Qed.

Lemma forms_elapse_S n s : elapse (S n) s = millisecond (elapse n s).
Proof. reflexivity. Qed.

Lemma forms_elapse_idle j s :
  (forall k, In k (tasks s) -> (clock s + Z.of_nat j < due_of k)%Z) ->
  elapse j s = at_clock (clock s + Z.of_nat j) s.
Proof.
  induction j as [| j IH]; intros H.
  - cbn. rewrite Z.add_0_r. now destruct s.
  - rewrite forms_elapse_S, IH by (intros k Hk; specialize (H k Hk); lia).
    rewrite forms_millisecond_idle.
    + unfold at_clock. cbn. f_equal. lia.
    + cbn [tasks clock at_clock]. intros k Hk. specialize (H k Hk). lia.
Qed.

(** The one task pending falls due in [S j] ms: nothing happens for [j] ms
    and then it runs. *)
Lemma forms_elapse_to_task j k s :
  tasks s = [k] -> due_of k = (clock s + Z.of_nat (S j))%Z ->
  elapse (S j) s
  = run_task (mkForms (contactForm s) (newsletterForm s) (head s) (body s)
                (fresh s) [] (clock s + Z.of_nat (S j))) k.
Proof.
  intros Ht Hd. rewrite forms_elapse_S, forms_elapse_idle.
  - unfold millisecond. cbn [tasks clock at_clock contactForm newsletterForm
                             head body fresh].
    rewrite Ht. cbn [filter].
    replace (due_of k =? clock s + Z.of_nat j + 1)%Z with true
      by (symmetry; apply Z.eqb_eq; lia).
    cbn [negb fold_left]. f_equal. f_equal. lia.
  - rewrite Ht. intros k' [<- | []]. lia.
Qed.

Lemma forms_detach_absent n l : (forall x, In x l -> id x <> n) -> detach n l = l.
Proof.
  intros H. unfold detach. apply filter_all. intros x Hx.
  apply negb_true_iff, Nat.eqb_neq. now apply H.
Qed.

Lemma forms_detach_added l n m x :
  (forall y, In y l -> id y < n) -> n <= id x -> (id x = n \/ id x = m) -> n <= m ->
  detach m (detach n (l ++ [x])) = l.
Proof.
  intros Hl Hx Hid Hm. unfold detach. rewrite !filter_app.
  fold (detach n l). rewrite (forms_detach_absent n l)
    by (intros y Hy E; specialize (Hl y Hy); lia).
  fold (detach m l). rewrite (forms_detach_absent m l)
    by (intros y Hy E; specialize (Hl y Hy); lia).
  cbn [filter]. destruct (Nat.eqb_spec (id x) n) as [E | E]; cbn [negb filter].
  - apply app_nil_r.
  - destruct (Nat.eqb_spec (id x) m) as [E' | E']; cbn [negb]; [apply app_nil_r | lia].
Qed.

(** X25.  A form is submitted on a page where nothing is pending; [a] ms
    later, before the simulated second is over, the user types into it.
    While the second runs the document is as before.  When it is over, the
    success notification and its style node are in the document and the
    form is reset, losing what was typed meanwhile; 3000 ms later both
    nodes are gone again, head and body are exactly what they were, and
    nothing is pending. *)
Theorem submit_notifies_and_cleans_up
  (w : which) (s : t) (f : form) (a : nat) (typed : list string) :
  quiet s ->
  form_of w s = Some f ->
  (w = Newsletter -> email_input f = true) ->
  a < 1000 ->
  let sent := state_of (on_submit w s) in
  let waiting := elapse a sent in
  let shown := elapse (1000 - a) (type_in w typed waiting) in
  let gone := elapse 3000 shown in
  returns (on_submit w s) = true
  /\ head waiting = head s /\ body waiting = body s
  /\ head shown = head s ++ [mkNode (S (fresh s)) "style" "" ""]
  /\ body shown
     = body s ++ [mkNode (fresh s) "div" "notification success" (success_message w)]
  /\ form_of w shown = Some (reset f)
  /\ head gone = head s /\ body gone = body s /\ tasks gone = []
  /\ form_of w gone = Some (reset f).
Proof.
  intros [Hq Hids] Hf He Ha. cbn zeta.
  assert (Esent : on_submit w s = Normal (simulateLoading w s)).
  { unfold on_submit. rewrite Hf. destruct w; [reflexivity |].
    now rewrite (He eq_refl). }
  rewrite Esent. cbn [state_of returns]. split; [reflexivity |].
  assert (Ewait : elapse a (simulateLoading w s)
                  = at_clock (clock s + Z.of_nat a) (simulateLoading w s)).
  { apply (forms_elapse_idle a (simulateLoading w s)).
    unfold simulateLoading. cbn [tasks clock]. rewrite Hq.
    intros k [<- | []]. cbn. lia. }
  rewrite Ewait. split; [reflexivity |]. split; [reflexivity |].
  replace (1000 - a) with (S (999 - a)) by lia.
  set (s2 := type_in w typed _).
  assert (Et2 : tasks s2 = [Loaded (clock s + 1000) w]).
  { unfold s2, type_in, simulateLoading, at_clock. rewrite Hq. now destruct w. }
  assert (Ec2 : clock s2 = (clock s + Z.of_nat a)%Z).
  { unfold s2, type_in. now destruct w. }
  assert (Eh2 : head s2 = head s /\ body s2 = body s /\ fresh s2 = fresh s).
  { unfold s2, type_in. now destruct w. }
  destruct Eh2 as (Eh2 & Eb2 & Efr2).
  assert (Ef2 : form_of w s2 = Some (mkForm typed (defaults f) (email_input f))).
  { unfold s2, type_in, simulateLoading, at_clock.
    destruct w; cbn in *; rewrite Hf; reflexivity. }
  rewrite (forms_elapse_to_task (999 - a) _ s2 Et2) by (cbn [due_of]; lia).
  rewrite Eh2, Eb2, Efr2, Ec2.
  set (shown := run_task _ _).
  assert (Eshown : head shown = head s ++ [mkNode (S (fresh s)) "style" "" ""]
            /\ body shown
               = body s ++ [mkNode (fresh s) "div" "notification success"
                              (success_message w)]
            /\ form_of w shown = Some (reset f)
            /\ fresh shown = S (S (fresh s))
            /\ tasks shown
               = [Expire (clock s + Z.of_nat a + Z.of_nat (S (999 - a)) + 3000)
                         (fresh s) (S (fresh s))]
            /\ clock shown = (clock s + Z.of_nat a + Z.of_nat (S (999 - a)))%Z).
  { unfold shown, run_task, showNotification, reset.
    destruct w; cbn in Ef2 |- *; rewrite Ef2; cbn; auto 10. }
  destruct Eshown as (Ehs & Ebs & Efs & Efrs & Ets & Ecs).
  split; [exact Ehs |]. split; [exact Ebs |]. split; [exact Efs |].
  change 3000 with (S 2999).
  rewrite (forms_elapse_to_task 2999 _ shown Ets) by (cbn [due_of]; lia).
  cbn [run_task head body tasks]. rewrite Ehs, Ebs.
  assert (Hh : forall y, In y (head s) -> id y < fresh s)
    by (intros y Hy; apply Hids, in_or_app; auto).
  assert (Hb : forall y, In y (body s) -> id y < fresh s)
    by (intros y Hy; apply Hids, in_or_app; auto).
  split; [apply forms_detach_added; cbn; auto; lia |].
  split; [apply forms_detach_added; cbn; auto; lia |].
  split; [reflexivity |].
  destruct w; exact Efs.
Qed.

Lemma contact_page_quiet : quiet Samples.contact_page.
Proof.
  split; [reflexivity |]. intros x [<- | [<- | []]]; cbn; lia.
Qed.

Lemma submit_notifies_and_cleans_up_witness :
  quiet Samples.contact_page
  /\ 400 < 1000
  /\ body (elapse 3000
             (elapse (1000 - 400)
                (type_in Contact ["Bob"; ""; ""]
                   (elapse 400 (state_of (on_submit Contact Samples.contact_page))))))
     = body Samples.contact_page.
Proof.
  split; [exact contact_page_quiet |]. split; [lia |].
  pose proof (submit_notifies_and_cleans_up Contact Samples.contact_page _ 400
                ["Bob"; ""; ""] contact_page_quiet eq_refl
                (fun E => match E with end) ltac:(lia)) as H.
  cbn zeta in H. exact (proj1 (proj2 (proj2 (proj2 (proj2 (proj2 (proj2 (proj2 H)))))))).
Defined.

(** X26.  A newsletter form without an email input: the submit handler
    throws before it waits, so that nothing is ever shown and the form is
    never reset, however long one waits. *)
Theorem newsletter_without_email_shows_nothing (s : t) (f : form) (ms : nat) :
  tasks s = [] ->
  newsletterForm s = Some f ->
  email_input f = false ->
  let after := elapse ms (state_of (on_submit Newsletter s)) in
  returns (on_submit Newsletter s) = false
  /\ head after = head s /\ body after = body s
  /\ newsletterForm after = Some f.
Proof.
  intros Hq Hf He. cbn zeta. unfold on_submit. cbn [form_of]. rewrite Hf, He.
  cbn [state_of returns]. split; [reflexivity |].
  rewrite forms_elapse_idle by (rewrite Hq; intros k []).
  cbn [at_clock head body newsletterForm]. auto.
Qed.

Lemma newsletter_without_email_shows_nothing_witness :
  tasks Samples.contact_page = []
  /\ body (elapse 5000 (state_of (on_submit Newsletter Samples.contact_page)))
     = body Samples.contact_page.
Proof.
  split; [reflexivity |].
  exact (proj1 (proj2 (proj2 (newsletter_without_email_shows_nothing Samples.contact_page _ 5000
                                 eq_refl eq_refl eq_refl)))).
Defined.

End Forms.

(* ------------------------------------------------------------------ *)
(** *** Starting the page                                              *)
(* ------------------------------------------------------------------ *)

Section Starting.

Import Footprint Bootstrap.

Lemma construct_all_prefix cs p :
  exists rest, cs = fst (construct_all cs p) ++ rest.
Proof.
  induction cs as [| c r (rest & IH)]; cbn [construct_all].
  - exists []. reflexivity.
  - destruct (constructs c p).
    + destruct (construct_all r p) as [built logged]. cbn [fst] in *.
      exists rest. cbn. now f_equal.
    + exists (c :: r). reflexivity.
Qed.

(** X27.  [initApp] builds the controllers in its fixed order and stops at
    the first constructor that throws, so that the controllers built are
    always a leading part of the fourteen.  All fourteen are built and
    the success message is logged exactly when every dropdown item holds
    a link, the browser has [IntersectionObserver], and the page has
    [.slider-dots], [.testimonials-slider] and [#backToTop].  In
    particular, in a browser without [IntersectionObserver] the page
    gets no controller after ScrollAnimations: no counters, filter,
    carousel, search, forms, lightbox or like buttons. *)
Theorem initApp_builds_a_leading_part (p : page) :
  (exists rest, controllers = fst (initApp p) ++ rest)
  /\ (snd (initApp p) = complete p)
  /\ (complete p = true -> fst (initApp p) = controllers)
  /\ (has_IntersectionObserver p = false ->
      exists built, fst (initApp p) = built
        /\ incl built [Loader; Navigation; ScrollProgress; ScrollAnimations]
        /\ snd (initApp p) = false).
Proof.
  split; [apply construct_all_prefix |].
  destruct p as [dl io sd ts bt]. unfold initApp, complete, controllers.
  cbn [construct_all constructs dropdowns_hold_a_link has_IntersectionObserver
       has_slider_dots has_testimonials_slider has_backToTop].
  split; [| split].
  - destruct dl, io, sd, ts, bt; reflexivity.
  - destruct dl, io, sd, ts, bt; cbn; intros H; try discriminate H; reflexivity.
  - intros ->. eexists. split; [reflexivity |].
    destruct dl; cbn; split; try reflexivity; intros x Hx; cbn in *; tauto.
Qed.

Lemma initApp_builds_a_leading_part_witness :
  complete (mkPage true true true true true) = true
  /\ has_IntersectionObserver (mkPage true false true true true) = false
  /\ fst (initApp (mkPage true true true true true)) = controllers
  /\ snd (initApp (mkPage true false true true true)) = false.
Proof.
  split; [reflexivity |]. split; [reflexivity |]. split.
  - exact (proj1 (proj2 (proj2 (initApp_builds_a_leading_part
                                  (mkPage true true true true true)))) eq_refl).
  - destruct (proj2 (proj2 (proj2 (initApp_builds_a_leading_part
                                     (mkPage true false true true true)))) eq_refl)
      as (built & _ & _ & H).
    exact H.
Defined.

End Starting.

(* ------------------------------------------------------------------ *)
(** *** The parallax of the hero                                       *)
(* ------------------------------------------------------------------ *)

Section Parallax.

Import ParallaxEffect.

Lemma place_offset unit scrollY start layers i l :
  nth_error layers i = Some l ->
  offset i (place unit scrollY start layers)
  = Some (scrollY * (inject_Z (Z.of_nat (start + i) + 1) * unit))%Q.
Proof.
  unfold offset. revert start i.
  induction layers as [| x r IH]; intros start i H; [now destruct i |].
  destruct i as [| i]; cbn [place nth_error translateY].
  - now rewrite Nat.add_0_r.
  - cbn [nth_error] in H. rewrite (IH (S start) i H).
    now replace (S start + i) with (start + S i) by lia.
Qed.



End Parallax.
